(** * The menu catalog and its recycle bin (src/contexts/global.tsx)

    A shallow embedding of the five menu helpers of [GlobalContextProvider]:
    [addMenuItem], [removeMenuItem], [updateMenuItem], [restoreMenuItem] and
    [moveMenuItem].  The two React states [menuRawList] and [recyleRawData]
    are threaded explicitly through a [World]; a state setter called with an
    updater function is the application of that updater to the store, and the
    setters called from inside another updater run in call order. *)

From Stdlib Require Import String List ZArith Bool Lia.
From stdpp Require Import base option list gmap strings.
Import ListNotations.

Local Open Scope Z_scope.
Local Open Scope nat_scope.
Local Open Scope list_scope.
#[local] Set Warnings "-register-all".

(** ** Data model *)

(** Values held by the dynamic payload of a menu item ([item.data]). *)
Inductive JsVal : Type :=
| JNull
| JBool (b : bool)
| JNum (z : Z)
| JStr (s : string)
| JObj (fields : list (string * JsVal)).

Module MenuItemType.
(** Modelled from the spec: the enum of entry kinds is declared in '@/enums',
    outside the sources at hand.  The spec gives a closed set of leaf kinds
    (Http, Schema, Markdown document, Request) and folder kinds. *)
Inductive t : Type := Http | Schema | Markdown | Request | Folder.
End MenuItemType.

Module CatalogType.
(** Modelled from the spec: the enum [CatalogType] is declared in '@/enums'.
    The helper names its members [Http], [Schema], [Request] and [Markdown];
    [Other] stands for every member outside these four. *)
Inductive t : Type := Http | Schema | Request | Markdown | Other.
End CatalogType.

Module RecycleCatalogType.
(** Modelled from the spec: [RecycleCatalogType] is declared in '@/types';
    its members are the three keys of the recycle store, the members of
    [CatalogType] that pass the test of lines 93-97. *)
Inductive t : Type := Http | Schema | Request.
End RecycleCatalogType.

Module ApiMenuData.
(** Modelled from the spec: the type is declared in '@/components/ApiMenu';
    the fields are those of the spec's CatalogEntry. *)
Record t : Type := mk {
  id : string;
  parentId : option string;
  type : MenuItemType.t;
  name : string;
  data : gmap string JsVal
}.
End ApiMenuData.
Abbreviation ApiMenuData := ApiMenuData.t.

Module MenuUpdate.
(** The argument of [updateMenuItem]: [Partial<ApiMenuData> & Pick<'id'>].
    A field that the caller omits is [None]. *)
Record t : Type := mk {
  id : string;
  parentId : option (option string);
  type : option MenuItemType.t;
  name : option string;
  data : option (gmap string JsVal)
}.
End MenuUpdate.
Abbreviation MenuUpdate := MenuUpdate.t.

Module RecycleDataItem.
(** Modelled from the spec: declared in '@/types'; the fields are those of
    the record literal of line 104. *)
Record t : Type := mk {
  id : string;
  expiredAt : string;
  creator : string;
  deletedItem : ApiMenuData
}.
End RecycleDataItem.
Abbreviation RecycleDataItem := RecycleDataItem.t.

(** Modelled from the spec: [RecycleData] is declared in '@/types'; it maps
    each of the three recycle categories to the list of its records
    ([draft[catalogType].list]). *)
Record RecycleData : Type := mkRecycleData {
  httpList : list RecycleDataItem;
  schemaList : list RecycleDataItem;
  requestList : list RecycleDataItem
}.

(** [draft[catalogType].list] *)
Definition getList (c : RecycleCatalogType.t) (d : RecycleData) : list RecycleDataItem :=
  match c with
  | RecycleCatalogType.Http => httpList d
  | RecycleCatalogType.Schema => schemaList d
  | RecycleCatalogType.Request => requestList d
  end.

(** [draft[catalogType].list = l] *)
Definition setList (c : RecycleCatalogType.t) (l : list RecycleDataItem) (d : RecycleData)
  : RecycleData :=
  match c with
  | RecycleCatalogType.Http => mkRecycleData l (schemaList d) (requestList d)
  | RecycleCatalogType.Schema => mkRecycleData (httpList d) l (requestList d)
  | RecycleCatalogType.Request => mkRecycleData (httpList d) (schemaList d) l
  end.

(** The two stores of the provider, and the number of calls made to
    [nanoid] so far. *)
Record World : Type := mkWorld {
  menuRawList : option (list ApiMenuData);
  recyleRawData : option RecycleData;
  nanoidCalls : nat
}.

(** ** Helpers imported by the source *)

(** Modelled from the spec: [getCatalogType] lives in '@/helpers'.  Each leaf
    kind maps to its category; a folder kind maps outside the four
    categories the caller tests for. *)
Definition getCatalogType (ty : MenuItemType.t) : CatalogType.t :=
  match ty with
  | MenuItemType.Http => CatalogType.Http
  | MenuItemType.Schema => CatalogType.Schema
  | MenuItemType.Markdown => CatalogType.Markdown
  | MenuItemType.Request => CatalogType.Request
  | MenuItemType.Folder => CatalogType.Other
  end.

(** Modelled from the spec: [isMenuFolder] lives in '@/helpers'; it is the
    predicate that identifies the folder kinds. *)
Definition isMenuFolder (ty : MenuItemType.t) : bool :=
  match ty with
  | MenuItemType.Folder => true
  | _ => false
  end.

(** Modelled from the spec: [moveArrayItem] lives in '@/utils'.  It removes
    the element at [fromIndex] and reinserts it at [toIndex], an index of the
    array before the removal: the removal shifts the later elements down by
    one, so the insertion index is [toIndex - 1] when [fromIndex] precedes
    [toIndex].  The callers only pass a [fromIndex] in range; out of range
    the array is kept. *)
Definition moveArrayItem {A : Type} (arr : list A) (fromIndex toIndex : nat) : list A :=
  match arr !! fromIndex with
  | None => arr
  | Some x =>
      let rest := delete fromIndex arr in
      let target := if (fromIndex <? toIndex)%nat then (toIndex - 1)%nat else toIndex in
      take target rest ++ x :: drop target rest
  end.

(** [Array.prototype.findIndex]: the index of the first element that
    satisfies [p], or [-1]. *)
Fixpoint findIndexFrom {A : Type} (p : A -> bool) (l : list A) (i : Z) : Z :=
  match l with
  | [] => (-1)%Z
  | x :: r => if p x then i else findIndexFrom p r (i + 1)%Z
  end.

Definition findIndex {A : Type} (p : A -> bool) (l : list A) : Z := findIndexFrom p l 0%Z.

(** [Array.prototype.reduce] with the index passed to the callback. *)
Fixpoint reduceFrom {A B : Type} (f : B -> A -> nat -> B) (l : list A) (idx : nat) (acc : B) : B :=
  match l with
  | [] => acc
  | x :: r => reduceFrom f r (S idx) (f acc x idx)
  end.

Definition reduce {A B : Type} (f : B -> A -> nat -> B) (acc : B) (l : list A) : B :=
  reduceFrom f l 0%nat acc.

(** [a === b] on [string | null] *)
Definition parentEqb (a b : option string) : bool :=
  match a, b with
  | Some x, Some y => String.eqb x y
  | None, None => true
  | _, _ => false
  end.

(** ** addMenuItem (lines 74-76) *)

Definition addMenuItem (menuData : ApiMenuData) (w : World) : World :=
  mkWorld (Some (default [] (menuRawList w) ++ [menuData])) (recyleRawData w) (nanoidCalls w).

(** ** removeMenuItem (lines 78-117) *)

(** line 81 *)
Definition shouldRemove (id : string) (item : ApiMenuData) : bool :=
  String.eqb (ApiMenuData.id item) id || parentEqb (ApiMenuData.parentId item) (Some id).

(** lines 87-97: the Markdown category is folded into Http, and only the
    three recycle categories pass. *)
Definition recycleCategory (ty : MenuItemType.t) : option RecycleCatalogType.t :=
  let catalogType := getCatalogType ty in
  let catalogType :=
    match catalogType with
    | CatalogType.Markdown => CatalogType.Http
    | _ => catalogType
    end in
  match catalogType with
  | CatalogType.Http => Some RecycleCatalogType.Http
  | CatalogType.Schema => Some RecycleCatalogType.Schema
  | CatalogType.Request => Some RecycleCatalogType.Request
  | _ => None
  end.

Section Remove.

(** [nanoid(6)]: the string returned by the k-th call. *)
Variable nanoid : nat -> string.
(** The constant [creator] of '@/data/remote'. *)
Variable creator : string.

(** The recipe given to [produce] for one removed item (lines 86-109).  The
    test of line 100 compares [deletedItem.id] with [id], the argument of
    [removeMenuItem]. *)
Definition recycleRecipe (id : string) (item : ApiMenuData) (d : RecycleData) (n : nat)
  : RecycleData * nat :=
  match recycleCategory (ApiMenuData.type item) with
  | Some catalogType =>
      let list := getList catalogType d in
      let exists_ :=
        negb (findIndex (fun it => String.eqb (ApiMenuData.id (RecycleDataItem.deletedItem it)) id)
                list =? -1)%Z in
      if exists_ then (d, n)
      else (setList catalogType
              (RecycleDataItem.mk (nanoid n) "30天"%string creator item :: list) d, S n)
  | None => (d, n)
  end.

(** The updater given to [setRecyleRawData] (lines 84-111). *)
Definition recycleUpdater (id : string) (item : ApiMenuData) (d : option RecycleData) (n : nat)
  : option RecycleData * nat :=
  match d with
  | Some d0 => let '(d1, n1) := recycleRecipe id item d0 n in (Some d1, n1)
  | None => (None, n)
  end.

(** [rawList.filter(...)] of lines 80-115: the items are visited in list
    order, a kept item is emitted and a removed one is routed to the
    recycle store. *)
Fixpoint removeFilter (id : string) (rawList : list ApiMenuData) (d : option RecycleData) (n : nat)
  : list ApiMenuData * option RecycleData * nat :=
  match rawList with
  | [] => ([], d, n)
  | item :: rest =>
      if shouldRemove id item then
        let '(d1, n1) := recycleUpdater id item d n in
        removeFilter id rest d1 n1
      else
        let '(kept, d1, n1) := removeFilter id rest d n in
        (item :: kept, d1, n1)
  end.

Definition removeMenuItem (id : string) (w : World) : World :=
  match menuRawList w with
  | None => w
  | Some rawList =>
      let '(kept, d, n) := removeFilter id rawList (recyleRawData w) (nanoidCalls w) in
      mkWorld (Some kept) d n
  end.

End Remove.

(** ** updateMenuItem (lines 119-133) *)

(** [rest.name || item.name]: an omitted or empty name is falsy. *)
Definition nameOr (restName : option string) (itemName : string) : string :=
  match restName with
  | Some n => if String.eqb n ""%string then itemName else n
  | None => itemName
  end.

(** The object literal of lines 123-127.  [rest] is the argument without its
    [id]; the spread of [rest] overrides the fields it holds, and in [data]
    the keys of [rest.data] override those of [item.data] before [name] is
    written. *)
Definition mergeMenuItem (item : ApiMenuData) (rest : MenuUpdate) : ApiMenuData :=
  ApiMenuData.mk
    (ApiMenuData.id item)
    (default (ApiMenuData.parentId item) (MenuUpdate.parentId rest))
    (default (ApiMenuData.type item) (MenuUpdate.type rest))
    (default (ApiMenuData.name item) (MenuUpdate.name rest))
    (<["name"%string := JStr (nameOr (MenuUpdate.name rest) (ApiMenuData.name item))]>
       (default ∅ (MenuUpdate.data rest) ∪ ApiMenuData.data item)).

Definition updateMenuItem (menuData : MenuUpdate) (w : World) : World :=
  mkWorld
    (option_map
       (List.map (fun item =>
          if String.eqb (ApiMenuData.id item) (MenuUpdate.id menuData)
          then mergeMenuItem item menuData
          else item))
       (menuRawList w))
    (recyleRawData w) (nanoidCalls w).

(** ** restoreMenuItem (lines 135-163) *)

(** The updater given to [setMenuRawList] (lines 147-155).  On a list that
    is not loaded [findIndex] is not called and [exists] is true. *)
Definition restoreUpdater (apiMenuDataItem : ApiMenuData) (rawList : option (list ApiMenuData))
  : option (list ApiMenuData) :=
  match rawList with
  | None => None
  | Some l =>
      let exists_ :=
        negb (findIndex (fun it => String.eqb (ApiMenuData.id it) (ApiMenuData.id apiMenuDataItem)) l
              =? -1)%Z in
      if exists_ then Some l else Some (l ++ [apiMenuDataItem])
  end.

(** [list.filter(...)] of lines 141-159: a record whose id is [restoreId] is
    dropped and its [deletedItem] is handed to the catalog updater. *)
Fixpoint restoreFilter (restoreId : string) (records : list RecycleDataItem)
    (rawList : option (list ApiMenuData))
  : list RecycleDataItem * option (list ApiMenuData) :=
  match records with
  | [] => ([], rawList)
  | li :: rest =>
      if String.eqb (RecycleDataItem.id li) restoreId then
        restoreFilter restoreId rest (restoreUpdater (RecycleDataItem.deletedItem li) rawList)
      else
        let '(kept, rawList1) := restoreFilter restoreId rest rawList in
        (li :: kept, rawList1)
  end.

Definition restoreMenuItem (restoreId : string) (catalogType : RecycleCatalogType.t) (w : World)
  : World :=
  match recyleRawData w with
  | None => w
  | Some d =>
      let '(kept, rawList) := restoreFilter restoreId (getList catalogType d) (menuRawList w) in
      mkWorld rawList (Some (setList catalogType kept d)) (nanoidCalls w)
  end.

(** ** moveMenuItem (lines 165-210) *)

Record MoveAcc : Type := mkMoveAcc {
  dragMenu : option ApiMenuData;
  dropMenu : option ApiMenuData;
  dragMenuIdx : option nat;
  dropMenuIdx : option nat
}.

(** The callback of [reduce] (lines 173-183). *)
Definition moveLookup (dragKey dropKey : string) (acc : MoveAcc) (item : ApiMenuData) (idx : nat)
  : MoveAcc :=
  if String.eqb (ApiMenuData.id item) dragKey then
    mkMoveAcc (Some item) (dropMenu acc) (Some idx) (dropMenuIdx acc)
  else if String.eqb (ApiMenuData.id item) dropKey then
    mkMoveAcc (dragMenu acc) (Some item) (dragMenuIdx acc) (Some idx)
  else acc.

(** [draft[idx].parentId = p] *)
Definition setParentId (p : option string) (item : ApiMenuData) : ApiMenuData :=
  ApiMenuData.mk (ApiMenuData.id item) p (ApiMenuData.type item) (ApiMenuData.name item)
    (ApiMenuData.data item).

(** The updater given to [setMenuRawList] (lines 166-209); [dropPosition] is
    0 (inside), -1 (top) or 1 (bottom). *)
Definition moveUpdater (dragKey dropKey : string) (dropPosition : Z)
    (rawList : option (list ApiMenuData)) : list ApiMenuData :=
  let list := default [] rawList in
  let acc := reduce (moveLookup dragKey dropKey) (mkMoveAcc None None None None) list in
  match dragMenu acc, dropMenu acc, dragMenuIdx acc, dropMenuIdx acc with
  | Some dragMenu, Some dropMenu, Some dragMenuIdx, Some dropMenuIdx =>
      if isMenuFolder (ApiMenuData.type dropMenu) && (dropPosition =? 0)%Z then
        moveArrayItem
          (alter (setParentId (Some (ApiMenuData.id dropMenu))) dragMenuIdx list)
          dragMenuIdx (dropMenuIdx + 1)
      else if (dropPosition =? 1)%Z then
        if negb (parentEqb (ApiMenuData.parentId dragMenu) (ApiMenuData.parentId dropMenu)) then
          moveArrayItem
            (alter (setParentId (ApiMenuData.parentId dropMenu)) dragMenuIdx list)
            dragMenuIdx (dropMenuIdx + 1)
        else
          moveArrayItem list dragMenuIdx (dropMenuIdx + 1)
      else list
  | _, _, _, _ => list
  end.

Definition moveMenuItem (dragKey dropKey : string) (dropPosition : Z) (w : World) : World :=
  mkWorld (Some (moveUpdater dragKey dropKey dropPosition (menuRawList w)))
    (recyleRawData w) (nanoidCalls w).

(** ** Sample data *)

Definition entry (id : string) (parentId : option string) (ty : MenuItemType.t) : ApiMenuData :=
  ApiMenuData.mk id parentId ty id ∅.

Definition emptyRecycle : RecycleData := mkRecycleData [] [] [].

Fixpoint sampleNanoid (k : nat) : string :=
  match k with
  | O => "r"%string
  | S k' => String.append "r"%string (sampleNanoid k')
  end.

(** The catalog of the spec's scenario A: a folder and an Http item in it. *)
Definition folder1 : ApiMenuData := entry "1" None MenuItemType.Folder.
Definition http2 : ApiMenuData := entry "2" (Some "1"%string) MenuItemType.Http.
Definition scenarioA : World := mkWorld (Some [folder1; http2]) (Some emptyRecycle) 0.

(** An item that reuses the id "2" with another name. *)
Definition renamed2 : ApiMenuData :=
  ApiMenuData.mk "2" (Some "1"%string) MenuItemType.Http "renamed" ∅.

(** Three Http items; "b" lies in a folder "f". *)
Definition itemA : ApiMenuData := entry "a" None MenuItemType.Http.
Definition itemB : ApiMenuData := entry "b" (Some "f"%string) MenuItemType.Http.
Definition itemC : ApiMenuData := entry "c" None MenuItemType.Http.

(** A recycle store that holds the snapshot of "2" under the record id "r". *)
Definition recycledHttp2 : RecycleData :=
  mkRecycleData [RecycleDataItem.mk "r" "30天" "me" http2] [] [].

(** An update that renames and sets one payload key. *)
Definition renameB : MenuUpdate :=
  MenuUpdate.mk "b" None None (Some "B"%string) (Some {[ "path"%string := JStr "/b" ]}).

(** A folder "f", the parent of [itemB]. *)
Definition folderF : ApiMenuData := entry "f" None MenuItemType.Folder.

(** The fields of an item that a move never writes. *)
Definition sansParent (item : ApiMenuData)
  : string * MenuItemType.t * string * gmap string JsVal :=
  (ApiMenuData.id item, ApiMenuData.type item, ApiMenuData.name item, ApiMenuData.data item).

(** ** Notions used by the statements *)

Definition categoryEqb (c c' : RecycleCatalogType.t) : bool :=
  match c, c' with
  | RecycleCatalogType.Http, RecycleCatalogType.Http => true
  | RecycleCatalogType.Schema, RecycleCatalogType.Schema => true
  | RecycleCatalogType.Request, RecycleCatalogType.Request => true
  | _, _ => false
  end.

(** [item] is removed by [removeMenuItem id] and its kind is routed to the
    recycle category [c]. *)
Definition routedTo (id : string) (c : RecycleCatalogType.t) (item : ApiMenuData) : bool :=
  shouldRemove id item &&
  match recycleCategory (ApiMenuData.type item) with
  | Some c' => categoryEqb c c'
  | None => false
  end.

(** The category [c] holds a record of an item with this id. *)
Definition recorded (id : string) (l : list RecycleDataItem) : bool :=
  existsb (fun it => String.eqb (ApiMenuData.id (RecycleDataItem.deletedItem it)) id) l.

(** ** Facts about the array helpers *)

Lemma findIndexFrom_existsb {A : Type} (p : A -> bool) (l : list A) (i : Z) :
  (0 <= i)%Z -> (findIndexFrom p l i =? -1)%Z = negb (existsb p l).
Proof.
  revert i. induction l as [|x r IH]; intros i Hi; simpl.
  - reflexivity.
  - destruct (p x); simpl.
    + apply Z.eqb_neq. lia.
    + apply IH. lia.
Qed.

Lemma findIndex_found {A : Type} (p : A -> bool) (l : list A) :
  negb (findIndex p l =? -1)%Z = existsb p l.
Proof.
  unfold findIndex. rewrite findIndexFrom_existsb by lia. apply negb_involutive.
Qed.

Lemma shouldRemove_false (id : string) (item : ApiMenuData) :
  shouldRemove id item = false <->
  ApiMenuData.id item <> id /\ ApiMenuData.parentId item <> Some id.
Proof.
  unfold shouldRemove, parentEqb. rewrite orb_false_iff, String.eqb_neq.
  destruct (ApiMenuData.parentId item) as [p|].
  - rewrite String.eqb_neq. split; intros [H1 H2]; split; congruence.
  - split; intros [H1 H2]; split; congruence.
Qed.

Lemma parentEqb_eq (a b : option string) : parentEqb a b = true <-> a = b.
Proof.
  destruct a as [x|], b as [y|]; simpl; try rewrite String.eqb_eq;
    split; intros H; congruence.
Qed.

Section RemoveFacts.

Variable nanoid : nat -> string.
Variable creator : string.

Lemma removeFilter_kept (id : string) (rawList : list ApiMenuData) (d : option RecycleData) (n : nat) :
  (removeFilter nanoid creator id rawList d n).1.1 =
  List.filter (fun item => negb (shouldRemove id item)) rawList.
Proof.
  revert d n. induction rawList as [|item rest IH]; intros d n; simpl.
  - reflexivity.
  - destruct (shouldRemove id item); simpl.
    + destruct (recycleUpdater nanoid creator id item d n) as [d1 n1]. apply IH.
    + specialize (IH d n).
      destruct (removeFilter nanoid creator id rest d n) as [[kept d1] n1].
      simpl in *. now rewrite IH.
Qed.

Lemma removeMenuItem_menuRawList (id : string) (rawList : list ApiMenuData)
    (d : option RecycleData) (n : nat) :
  menuRawList (removeMenuItem nanoid creator id (mkWorld (Some rawList) d n)) =
  Some (List.filter (fun item => negb (shouldRemove id item)) rawList).
Proof.
  unfold removeMenuItem. simpl.
  pose proof (removeFilter_kept id rawList d n) as H.
  destruct (removeFilter nanoid creator id rawList d n) as [[kept d1] n1].
  simpl in *. now rewrite H.
Qed.

(** C4: on a loaded catalog, removeMenuItem keeps, in their order, exactly
    the items whose id and parentId both differ from the argument: the item
    itself and its direct children go, every other item (deeper descendants
    included) stays, and afterwards no item has that id or that parentId. *)
Theorem removeMenuItem_single_level_cascade
    (id : string) (rawList : list ApiMenuData) (d : option RecycleData) (n : nat) :
  exists kept,
    menuRawList (removeMenuItem nanoid creator id (mkWorld (Some rawList) d n)) = Some kept /\
    kept = List.filter (fun item => negb (shouldRemove id item)) rawList /\
    (forall item, In item kept <->
       In item rawList /\ ApiMenuData.id item <> id /\ ApiMenuData.parentId item <> Some id) /\
    Forall (fun item => ApiMenuData.id item <> id /\ ApiMenuData.parentId item <> Some id) kept.
Proof.
  exists (List.filter (fun item => negb (shouldRemove id item)) rawList).
  assert (Hin : forall item,
             In item (List.filter (fun item => negb (shouldRemove id item)) rawList) <->
             In item rawList /\ ApiMenuData.id item <> id /\ ApiMenuData.parentId item <> Some id).
  { intros item. rewrite filter_In, negb_true_iff, shouldRemove_false. tauto. }
  split; [apply removeMenuItem_menuRawList|].
  split; [reflexivity|]. split; [exact Hin|].
  apply List.Forall_forall. intros item Hitem. apply Hin in Hitem. tauto.
Qed.

End RemoveFacts.

(** A grandchild of the removed folder stays in the catalog. *)
Example removeMenuItem_keeps_grandchild :
  menuRawList
    (removeMenuItem sampleNanoid "me"%string "1"%string
       (mkWorld (Some [entry "1" None MenuItemType.Folder;
                       entry "2" (Some "1"%string) MenuItemType.Folder;
                       entry "3" (Some "2"%string) MenuItemType.Http])
          (Some emptyRecycle) 0)) =
  Some [entry "3" (Some "2"%string) MenuItemType.Http].
Proof. reflexivity. Qed.

(** ** Facts about the lookup pass of moveMenuItem *)

Section MoveLookup.

Variables dragKey dropKey : string.

Local Abbreviation f := (moveLookup dragKey dropKey).

Lemma reduceFrom_app (a b : list ApiMenuData) (k : nat) (acc : MoveAcc) :
  reduceFrom f (a ++ b) k acc = reduceFrom f b (k + length a) (reduceFrom f a k acc).
Proof.
  revert k acc. induction a as [|x a IH]; intros k acc; simpl.
  - now rewrite Nat.add_0_r.
  - rewrite IH. f_equal. lia.
Qed.

Lemma reduceFrom_skip (a : list ApiMenuData) (k : nat) (acc : MoveAcc) :
  (forall y, In y a -> ApiMenuData.id y <> dragKey /\ ApiMenuData.id y <> dropKey) ->
  reduceFrom f a k acc = acc.
Proof.
  revert k acc. induction a as [|x a IH]; intros k acc H; simpl.
  - reflexivity.
  - destruct (H x (or_introl eq_refl)) as [H1 H2].
    unfold moveLookup at 2.
    apply String.eqb_neq in H1, H2. rewrite H1, H2.
    apply IH. intros y Hy. apply H. now right.
Qed.

Lemma reduceFrom_dragMenu_absent (a : list ApiMenuData) (k : nat) (acc : MoveAcc) :
  (forall y, In y a -> ApiMenuData.id y <> dragKey) ->
  dragMenu (reduceFrom f a k acc) = dragMenu acc.
Proof.
  revert k acc. induction a as [|x a IH]; intros k acc H; simpl.
  - reflexivity.
  - rewrite IH by (intros y Hy; apply H; now right).
    unfold moveLookup.
    pose proof (H x (or_introl eq_refl)) as H1. apply String.eqb_neq in H1. rewrite H1.
    now destruct (String.eqb (ApiMenuData.id x) dropKey).
Qed.

Lemma reduceFrom_dropMenu_sound (a : list ApiMenuData) (k : nat) (acc : MoveAcc) (x : ApiMenuData) :
  dropMenu (reduceFrom f a k acc) = Some x ->
  dropMenu acc = Some x \/
  (In x a /\ ApiMenuData.id x = dropKey /\ ApiMenuData.id x <> dragKey).
Proof.
  revert k acc. induction a as [|y a IH]; intros k acc H; simpl in *.
  - now left.
  - apply IH in H. destruct H as [H|(H1 & H2 & H3)].
    + unfold moveLookup in H.
      destruct (String.eqb (ApiMenuData.id y) dragKey) eqn:E1; simpl in H; [now left|].
      destruct (String.eqb (ApiMenuData.id y) dropKey) eqn:E2; simpl in H; [|now left].
      injection H as <-. right. apply String.eqb_neq in E1. apply String.eqb_eq in E2.
      repeat split; auto.
    + right. repeat split; auto.
Qed.

Lemma moveUpdater_no_drag (pos : Z) (l : list ApiMenuData) :
  dragMenu (reduce f (mkMoveAcc None None None None) l) = None ->
  moveUpdater dragKey dropKey pos (Some l) = l.
Proof.
  intros H. unfold moveUpdater. simpl. now rewrite H.
Qed.

Lemma moveUpdater_no_drop (pos : Z) (l : list ApiMenuData) :
  dropMenu (reduce f (mkMoveAcc None None None None) l) = None ->
  moveUpdater dragKey dropKey pos (Some l) = l.
Proof.
  intros H. unfold moveUpdater. simpl. rewrite H.
  now destruct (dragMenu _).
Qed.

End MoveLookup.

Lemma moveArrayItem_cons {A : Type} (a : A) (l : list A) (i t : nat) :
  moveArrayItem (a :: l) (S i) (S t) = a :: moveArrayItem l i t.
Proof.
  unfold moveArrayItem. simpl (_ !! _).
  destruct (l !! i) as [x|] eqn:E; [|reflexivity].
  simpl (delete _ _). change (S i <? S t) with (i <? t).
  destruct (i <? t) eqn:Hlt.
  - apply Nat.ltb_lt in Hlt. destruct t as [|t']; [lia|].
    simpl. now rewrite Nat.sub_0_r.
  - reflexivity.
Qed.

Lemma moveArrayItem_head {A : Type} (x : A) (r : list A) (t : nat) :
  moveArrayItem (x :: r) 0 (S t) = take t r ++ x :: drop t r.
Proof.
  unfold moveArrayItem. cbn [lookup list_lookup delete list_delete Nat.ltb Nat.leb].
  now rewrite Nat.sub_succ, Nat.sub_0_r.
Qed.

Lemma moveArrayItem_forward {A : Type} (a : list A) (x : A) (b1 : list A) (y : A) (b2 : list A) :
  moveArrayItem (a ++ x :: b1 ++ y :: b2) (length a) (length a + S (length b1) + 1) =
  a ++ b1 ++ y :: x :: b2.
Proof.
  induction a as [|z a IH].
  - change (length [] + S (length b1) + 1) with (S (length b1 + 1)).
    change ([] ++ x :: b1 ++ y :: b2) with (x :: b1 ++ y :: b2).
    change (length (@nil A)) with 0.
    rewrite moveArrayItem_head.
    replace (b1 ++ y :: b2) with ((b1 ++ [y]) ++ b2) by now rewrite <- app_assoc.
    replace (length b1 + 1) with (length (b1 ++ [y])) by (rewrite length_app; simpl; lia).
    rewrite take_app_length, drop_app_length. now rewrite <- app_assoc.
  - change (moveArrayItem (z :: (a ++ x :: b1 ++ y :: b2)) (S (length a))
              (S (length a + S (length b1) + 1)) = z :: (a ++ b1 ++ y :: x :: b2)).
    rewrite moveArrayItem_cons. now rewrite IH.
Qed.

Lemma moveArrayItem_backward {A : Type} (a1 : list A) (y : A) (a2 : list A) (x : A) (b : list A) :
  moveArrayItem (a1 ++ y :: a2 ++ x :: b) (length a1 + S (length a2)) (length a1 + 1) =
  a1 ++ y :: x :: a2 ++ b.
Proof.
  induction a1 as [|z a1 IH].
  - change (moveArrayItem (y :: (a2 ++ x :: b)) (S (length a2)) 1 = y :: x :: a2 ++ b).
    rewrite moveArrayItem_cons. f_equal.
    unfold moveArrayItem.
    assert (E : (a2 ++ x :: b) !! length a2 = Some x).
    { rewrite lookup_app_r by lia. now rewrite Nat.sub_diag. }
    rewrite E.
    replace (length a2 <? 0) with false by (symmetry; apply Nat.ltb_ge; lia).
    rewrite take_0, drop_0. cbn [app]. f_equal.
    clear. induction a2 as [|w a2 IH]; simpl; [reflexivity|now rewrite IH].
  - change (moveArrayItem (z :: (a1 ++ y :: a2 ++ x :: b)) (S (length a1 + S (length a2)))
              (S (length a1 + 1)) = z :: (a1 ++ y :: x :: a2 ++ b)).
    rewrite moveArrayItem_cons. now rewrite IH.
Qed.

Lemma alter_middle {A : Type} (g : A -> A) (a : list A) (x : A) (b : list A) :
  alter g (length a) (a ++ x :: b) = a ++ g x :: b.
Proof.
  induction a as [|z a IH]; [reflexivity|].
  change (z :: alter g (length a) (a ++ x :: b) = z :: (a ++ g x :: b)).
  now rewrite IH.
Qed.

Lemma filter_all {A : Type} (p : A -> bool) (l : list A) :
  (forall y, In y l -> p y = true) -> List.filter p l = l.
Proof.
  induction l as [|x l IH]; intros H; simpl; [reflexivity|].
  rewrite (H x (or_introl eq_refl)). f_equal. apply IH. intros y Hy. apply H. now right.
Qed.

Lemma NoDup_map_middle {A B : Type} (g : A -> B) (a : list A) (x : A) (b : list A) :
  List.NoDup (List.map g (a ++ x :: b)) ->
  forall y, In y (a ++ b) -> g y <> g x.
Proof.
  rewrite List.map_app. simpl. intros H y Hy E.
  apply List.NoDup_remove_2 in H. apply H.
  rewrite <- List.map_app, <- E. now apply List.in_map.
Qed.

Lemma setParentId_same (item : ApiMenuData) :
  setParentId (ApiMenuData.parentId item) item = item.
Proof. now destruct item. Qed.

Section MoveShapes.

Variables drag drop_ : ApiMenuData.
Hypothesis keys_differ : ApiMenuData.id drag <> ApiMenuData.id drop_.

Local Abbreviation f := (moveLookup (ApiMenuData.id drag) (ApiMenuData.id drop_)).
Local Abbreviation neutral a :=
  (forall y, In y a ->
     ApiMenuData.id y <> ApiMenuData.id drag /\ ApiMenuData.id y <> ApiMenuData.id drop_).

Lemma moveLookup_drag (acc : MoveAcc) (k : nat) :
  f acc drag k = mkMoveAcc (Some drag) (dropMenu acc) (Some k) (dropMenuIdx acc).
Proof. unfold moveLookup. now rewrite String.eqb_refl. Qed.

Lemma moveLookup_drop (acc : MoveAcc) (k : nat) :
  f acc drop_ k = mkMoveAcc (dragMenu acc) (Some drop_) (dragMenuIdx acc) (Some k).
Proof.
  unfold moveLookup.
  assert (E : String.eqb (ApiMenuData.id drop_) (ApiMenuData.id drag) = false).
  { apply String.eqb_neq. congruence. }
  now rewrite E, String.eqb_refl.
Qed.

Lemma reduce_forward (a b1 b2 : list ApiMenuData) :
  neutral a -> neutral b1 -> neutral b2 ->
  reduce f (mkMoveAcc None None None None) (a ++ drag :: b1 ++ drop_ :: b2) =
  mkMoveAcc (Some drag) (Some drop_) (Some (length a)) (Some (length a + S (length b1))).
Proof.
  intros Ha Hb1 Hb2. unfold reduce.
  rewrite reduceFrom_app. rewrite (reduceFrom_skip _ _ a) by exact Ha.
  cbn [reduceFrom]. rewrite moveLookup_drag.
  rewrite reduceFrom_app. rewrite (reduceFrom_skip _ _ b1) by exact Hb1.
  cbn [reduceFrom]. rewrite moveLookup_drop.
  rewrite (reduceFrom_skip _ _ b2) by exact Hb2.
  cbn. do 2 f_equal. lia.
Qed.

Lemma reduce_backward (a1 a2 b : list ApiMenuData) :
  neutral a1 -> neutral a2 -> neutral b ->
  reduce f (mkMoveAcc None None None None) (a1 ++ drop_ :: a2 ++ drag :: b) =
  mkMoveAcc (Some drag) (Some drop_) (Some (length a1 + S (length a2))) (Some (length a1)).
Proof.
  intros Ha1 Ha2 Hb. unfold reduce.
  rewrite reduceFrom_app. rewrite (reduceFrom_skip _ _ a1) by exact Ha1.
  cbn [reduceFrom]. rewrite moveLookup_drop.
  rewrite reduceFrom_app. rewrite (reduceFrom_skip _ _ a2) by exact Ha2.
  cbn [reduceFrom]. rewrite moveLookup_drag.
  rewrite (reduceFrom_skip _ _ b) by exact Hb.
  cbn. do 3 f_equal. lia.
Qed.

Lemma moveUpdater_after_forward (a b1 b2 : list ApiMenuData) :
  neutral a -> neutral b1 -> neutral b2 ->
  moveUpdater (ApiMenuData.id drag) (ApiMenuData.id drop_) 1
    (Some (a ++ drag :: b1 ++ drop_ :: b2)) =
  a ++ b1 ++ drop_ :: setParentId (ApiMenuData.parentId drop_) drag :: b2.
Proof.
  intros Ha Hb1 Hb2. unfold moveUpdater. cbn [default from_option id].
  rewrite reduce_forward by assumption. cbn [dragMenu dropMenu dragMenuIdx dropMenuIdx].
  rewrite andb_false_r. cbn [Z.eqb Pos.eqb].
  destruct (parentEqb (ApiMenuData.parentId drag) (ApiMenuData.parentId drop_)) eqn:E;
    cbn [negb].
  - apply parentEqb_eq in E. rewrite <- E, setParentId_same.
    apply moveArrayItem_forward.
  - rewrite alter_middle. apply moveArrayItem_forward.
Qed.

Lemma moveUpdater_after_backward (a1 a2 b : list ApiMenuData) :
  neutral a1 -> neutral a2 -> neutral b ->
  moveUpdater (ApiMenuData.id drag) (ApiMenuData.id drop_) 1
    (Some (a1 ++ drop_ :: a2 ++ drag :: b)) =
  a1 ++ drop_ :: setParentId (ApiMenuData.parentId drop_) drag :: a2 ++ b.
Proof.
  intros Ha1 Ha2 Hb. unfold moveUpdater. cbn [default from_option id].
  rewrite reduce_backward by assumption. cbn [dragMenu dropMenu dragMenuIdx dropMenuIdx].
  rewrite andb_false_r. cbn [Z.eqb Pos.eqb].
  destruct (parentEqb (ApiMenuData.parentId drag) (ApiMenuData.parentId drop_)) eqn:E;
    cbn [negb].
  - apply parentEqb_eq in E. rewrite <- E, setParentId_same.
    apply moveArrayItem_backward.
  - replace (a1 ++ drop_ :: a2 ++ drag :: b) with ((a1 ++ drop_ :: a2) ++ drag :: b)
      by (now rewrite <- app_assoc).
    replace (length a1 + S (length a2)) with (length (a1 ++ drop_ :: a2))
      by (rewrite length_app; reflexivity).
    rewrite alter_middle.
    replace (length (a1 ++ drop_ :: a2)) with (length a1 + S (length a2))
      by (rewrite length_app; reflexivity).
    rewrite <- app_assoc. apply moveArrayItem_backward.
Qed.

Lemma filter_without_drag (a b : list ApiMenuData) :
  (forall y, In y (a ++ b) -> ApiMenuData.id y <> ApiMenuData.id drag) ->
  List.filter (fun it => negb (String.eqb (ApiMenuData.id it) (ApiMenuData.id drag)))
    (a ++ drag :: b) = a ++ b.
Proof.
  intros H. rewrite List.filter_app. cbn [List.filter]. rewrite String.eqb_refl. cbn [negb].
  rewrite <- List.filter_app. apply filter_all.
  intros y Hy. apply negb_true_iff, String.eqb_neq. now apply H.
Qed.

End MoveShapes.

(** ** moveMenuItem *)

(** The list that a drop at position 1 produces, with the moved item
    written as the assignment of line 199 makes it. *)
Lemma moveMenuItem_after_shape :
  (forall (rawList : list ApiMenuData) (drag drop_ : ApiMenuData)
          (d : option RecycleData) (n : nat),
     List.NoDup (List.map ApiMenuData.id rawList) ->
     In drag rawList -> In drop_ rawList ->
     ApiMenuData.id drag <> ApiMenuData.id drop_ ->
     exists pre post,
       menuRawList
         (moveMenuItem (ApiMenuData.id drag) (ApiMenuData.id drop_) 1
            (mkWorld (Some rawList) d n)) =
         Some (pre ++ drop_ :: setParentId (ApiMenuData.parentId drop_) drag :: post) /\
       pre ++ drop_ :: post =
         List.filter (fun it => negb (String.eqb (ApiMenuData.id it) (ApiMenuData.id drag)))
           rawList /\
       (ApiMenuData.parentId drag = ApiMenuData.parentId drop_ ->
        setParentId (ApiMenuData.parentId drop_) drag = drag)) /\
  (forall (ta tb tc : MenuItemType.t) (d : option RecycleData) (n : nat),
     menuRawList
       (moveMenuItem "a"%string "c"%string 1
          (mkWorld (Some [entry "a" None ta; entry "b" None tb; entry "c" None tc]) d n)) =
     Some [entry "b" None tb; entry "c" None tc; entry "a" None ta]).
Proof.
  split; [|intros ta tb tc d n; destruct tc; reflexivity].
  intros rawList drag drop_ d n Hnd Hdrag Hdrop Hne.
  assert (Hsame : ApiMenuData.parentId drag = ApiMenuData.parentId drop_ ->
                  setParentId (ApiMenuData.parentId drop_) drag = drag).
  { intros <-. apply setParentId_same. }
  unfold moveMenuItem. cbn [menuRawList].
  apply List.in_split in Hdrag. destruct Hdrag as (a & b & ->).
  apply List.in_app_or in Hdrop. destruct Hdrop as [Hdrop|[Hdrop|Hdrop]].
  - (* the drop target precedes the dragged item *)
    apply List.in_split in Hdrop. destruct Hdrop as (a1 & a2 & ->).
    rewrite <- app_assoc in Hnd. cbn [app] in Hnd.
    assert (Hd : forall y, In y (a1 ++ a2 ++ drag :: b) ->
                           ApiMenuData.id y <> ApiMenuData.id drop_).
    { apply (NoDup_map_middle ApiMenuData.id a1 drop_ (a2 ++ drag :: b)), Hnd. }
    assert (Hg : forall y, In y ((a1 ++ drop_ :: a2) ++ b) ->
                           ApiMenuData.id y <> ApiMenuData.id drag).
    { apply (NoDup_map_middle ApiMenuData.id (a1 ++ drop_ :: a2) drag b).
      now rewrite <- app_assoc. }
    exists a1, (a2 ++ b). rewrite <- app_assoc. cbn [app].
    split; [|split; [|exact Hsame]].
    + f_equal. apply moveUpdater_after_backward; [exact Hne| | |]; intros y Hy; split.
      * apply Hg. rewrite <- app_assoc. apply List.in_or_app. now left.
      * apply Hd. apply List.in_or_app. now left.
      * apply Hg. rewrite <- app_assoc. apply List.in_or_app. right. right.
        apply List.in_or_app. now left.
      * apply Hd. apply List.in_or_app. right. apply List.in_or_app. now left.
      * apply Hg. apply List.in_or_app. now right.
      * apply Hd. apply List.in_or_app. right. apply List.in_or_app. right. now right.
    + replace (a1 ++ drop_ :: a2 ++ drag :: b) with ((a1 ++ drop_ :: a2) ++ drag :: b)
        by (now rewrite <- app_assoc).
      rewrite filter_without_drag by exact Hg. now rewrite <- app_assoc.
  - congruence.
  - (* the drop target follows the dragged item *)
    apply List.in_split in Hdrop. destruct Hdrop as (b1 & b2 & ->).
    assert (Hg : forall y, In y (a ++ b1 ++ drop_ :: b2) ->
                           ApiMenuData.id y <> ApiMenuData.id drag).
    { apply (NoDup_map_middle ApiMenuData.id a drag (b1 ++ drop_ :: b2)), Hnd. }
    assert (Hd : forall y, In y ((a ++ drag :: b1) ++ b2) ->
                           ApiMenuData.id y <> ApiMenuData.id drop_).
    { apply (NoDup_map_middle ApiMenuData.id (a ++ drag :: b1) drop_ b2).
      now rewrite <- app_assoc. }
    exists (a ++ b1), b2. rewrite <- !app_assoc.
    split; [|split; [|exact Hsame]].
    + f_equal. apply moveUpdater_after_forward; [exact Hne| | |]; intros y Hy; split.
      * apply Hg. apply List.in_or_app. now left.
      * apply Hd. rewrite <- app_assoc. apply List.in_or_app. now left.
      * apply Hg. apply List.in_or_app. right. apply List.in_or_app. now left.
      * apply Hd. rewrite <- app_assoc. apply List.in_or_app. right. right.
        apply List.in_or_app. now left.
      * apply Hg. apply List.in_or_app. right. apply List.in_or_app. right. now right.
      * apply Hd. apply List.in_or_app. now right.
    + now rewrite filter_without_drag by exact Hg.
Qed.

(** C1: in a catalog with unique ids that holds a dragged item and a
    different drop target, a drop at position 1 (after) puts right behind the
    drop target an item that has the parentId of the drop target and the id,
    type, name and data of the dragged item (the dragged item itself when it
    had that parentId already), the other items keeping their order; on
    [a; b; c] moving "a" after "c" yields [b; c; a]. *)
Theorem moveMenuItem_after_follows_drop :
  (forall (rawList : list ApiMenuData) (drag drop_ : ApiMenuData)
          (d : option RecycleData) (n : nat),
     List.NoDup (List.map ApiMenuData.id rawList) ->
     In drag rawList -> In drop_ rawList ->
     ApiMenuData.id drag <> ApiMenuData.id drop_ ->
     exists pre moved post,
       menuRawList
         (moveMenuItem (ApiMenuData.id drag) (ApiMenuData.id drop_) 1
            (mkWorld (Some rawList) d n)) =
         Some (pre ++ drop_ :: moved :: post) /\
       ApiMenuData.parentId moved = ApiMenuData.parentId drop_ /\
       ApiMenuData.id moved = ApiMenuData.id drag /\
       ApiMenuData.type moved = ApiMenuData.type drag /\
       ApiMenuData.name moved = ApiMenuData.name drag /\
       ApiMenuData.data moved = ApiMenuData.data drag /\
       (ApiMenuData.parentId drag = ApiMenuData.parentId drop_ -> moved = drag) /\
       pre ++ drop_ :: post =
         List.filter (fun it => negb (String.eqb (ApiMenuData.id it) (ApiMenuData.id drag)))
           rawList) /\
  (forall (ta tb tc : MenuItemType.t) (d : option RecycleData) (n : nat),
     menuRawList
       (moveMenuItem "a"%string "c"%string 1
          (mkWorld (Some [entry "a" None ta; entry "b" None tb; entry "c" None tc]) d n)) =
     Some [entry "b" None tb; entry "c" None tc; entry "a" None ta]).
Proof.
  split; [|exact (proj2 moveMenuItem_after_shape)].
  intros rawList drag drop_ d n Hnd Hdrag Hdrop Hne.
  destruct (proj1 moveMenuItem_after_shape rawList drag drop_ d n Hnd Hdrag Hdrop Hne)
    as (pre & post & H1 & H2 & H3).
  exists pre, (setParentId (ApiMenuData.parentId drop_) drag), post.
  split; [exact H1|].
  split; [reflexivity|]. split; [reflexivity|]. split; [reflexivity|].
  split; [reflexivity|]. split; [reflexivity|].
  split; [exact H3|exact H2].
Qed.

(** C9: on a loaded catalog moveMenuItem leaves the world as it is when no
    item has the drag key, when no item has the drop key, and when the drop
    combination has no branch: a position other than 1 that is not a drop
    inside (0) a folder. *)
Theorem moveMenuItem_noop
    (dragKey dropKey : string) (dropPosition : Z) (rawList : list ApiMenuData)
    (d : option RecycleData) (n : nat) :
  (forall y, In y rawList -> ApiMenuData.id y <> dragKey) \/
  (forall y, In y rawList -> ApiMenuData.id y <> dropKey) \/
  (dropPosition <> 1%Z /\
   (dropPosition = 0%Z ->
    forall y, In y rawList -> ApiMenuData.id y = dropKey ->
              isMenuFolder (ApiMenuData.type y) = false)) ->
  moveMenuItem dragKey dropKey dropPosition (mkWorld (Some rawList) d n) =
  mkWorld (Some rawList) d n.
Proof.
  intros H. unfold moveMenuItem. cbn [menuRawList recyleRawData nanoidCalls].
  f_equal. f_equal.
  destruct H as [H|[H|[Hpos Hfolder]]].
  - apply moveUpdater_no_drag. unfold reduce.
    now rewrite reduceFrom_dragMenu_absent.
  - apply moveUpdater_no_drop. unfold reduce.
    destruct (dropMenu _) as [x|] eqn:E; [|reflexivity].
    apply reduceFrom_dropMenu_sound in E. destruct E as [E|(E1 & E2 & _)].
    + discriminate.
    + now apply H in E1.
  - unfold moveUpdater. cbn [default from_option id].
    destruct (dragMenu _) as [dragM|]; [|reflexivity].
    destruct (dropMenu _) as [dropM|] eqn:E; [|reflexivity].
    destruct (dragMenuIdx _) as [i|]; [|reflexivity].
    destruct (dropMenuIdx _) as [j|]; [|reflexivity].
    unfold reduce in E. apply reduceFrom_dropMenu_sound in E.
    destruct E as [E|(E1 & E2 & _)]; [discriminate|].
    assert (E3 : (dropPosition =? 1)%Z = false) by now apply Z.eqb_neq.
    rewrite E3.
    destruct (dropPosition =? 0)%Z eqn:E0.
    + apply Z.eqb_eq in E0. rewrite (Hfolder E0 dropM E1 E2). reflexivity.
    + now rewrite andb_false_r.
Qed.

(** C10: on a loaded catalog moveMenuItem with the drag key as drop key
    leaves the world as it is, whatever the drop position: the lookup pass
    takes an item as drop target only when its id is not the drag key. *)
Theorem moveMenuItem_same_key
    (key : string) (dropPosition : Z) (rawList : list ApiMenuData)
    (d : option RecycleData) (n : nat) :
  moveMenuItem key key dropPosition (mkWorld (Some rawList) d n) = mkWorld (Some rawList) d n.
Proof.
  unfold moveMenuItem. cbn [menuRawList recyleRawData nanoidCalls].
  f_equal. f_equal. apply moveUpdater_no_drop. unfold reduce.
  destruct (dropMenu _) as [x|] eqn:E; [|reflexivity].
  apply reduceFrom_dropMenu_sound in E. destruct E as [E|(_ & E2 & E3)].
  - discriminate.
  - contradiction.
Qed.

(** ** updateMenuItem *)

Lemma lookup_map {A B : Type} (g : A -> B) (l : list A) (i : nat) :
  List.map g l !! i = option_map g (l !! i).
Proof.
  revert i. induction l as [|x l IH]; intros [|i]; simpl; try reflexivity. apply IH.
Qed.

Lemma map_id_on {A : Type} (g : A -> A) (l : list A) :
  (forall x, In x l -> g x = x) -> List.map g l = l.
Proof.
  induction l as [|x l IH]; intros H; simpl; [reflexivity|].
  rewrite (H x (or_introl eq_refl)). f_equal. apply IH. intros y Hy. apply H. now right.
Qed.

(** C6: on a loaded catalog updateMenuItem keeps the length and the
    positions; an item with another id is unchanged; an item with the id of
    the update keeps its id, takes parentId, type and name from the update
    where it holds them, and its data holds, key by key, the incoming
    payload's value if there is one and the existing one otherwise, except
    that key "name" holds the update's name, or the item's existing name when
    the update omits it (or holds the empty name); with no item of that id
    the catalog is unchanged. *)
Theorem updateMenuItem_merges
    (u : MenuUpdate) (rawList : list ApiMenuData) (d : option RecycleData) (n : nat) :
  exists l',
    updateMenuItem u (mkWorld (Some rawList) d n) = mkWorld (Some l') d n /\
    length l' = length rawList /\
    (forall i item, rawList !! i = Some item ->
       ApiMenuData.id item <> MenuUpdate.id u -> l' !! i = Some item) /\
    (forall i item, rawList !! i = Some item ->
       ApiMenuData.id item = MenuUpdate.id u ->
       exists item',
         l' !! i = Some item' /\
         ApiMenuData.id item' = ApiMenuData.id item /\
         ApiMenuData.parentId item' =
           match MenuUpdate.parentId u with
           | Some p => p
           | None => ApiMenuData.parentId item
           end /\
         ApiMenuData.type item' =
           match MenuUpdate.type u with
           | Some ty => ty
           | None => ApiMenuData.type item
           end /\
         ApiMenuData.name item' =
           match MenuUpdate.name u with
           | Some nm => nm
           | None => ApiMenuData.name item
           end /\
         (forall k, k <> "name"%string ->
            ApiMenuData.data item' !! k =
              match MenuUpdate.data u with
              | Some du =>
                  match du !! k with
                  | Some v => Some v
                  | None => ApiMenuData.data item !! k
                  end
              | None => ApiMenuData.data item !! k
              end) /\
         ApiMenuData.data item' !! "name"%string =
           Some (JStr
                   match MenuUpdate.name u with
                   | Some nm => if String.eqb nm ""%string then ApiMenuData.name item else nm
                   | None => ApiMenuData.name item
                   end)) /\
    ((forall item, In item rawList -> ApiMenuData.id item <> MenuUpdate.id u) ->
     l' = rawList).
Proof.
  eexists. split; [reflexivity|].
  split; [apply List.length_map|].
  split; [|split].
  - intros i item Hi Hne. rewrite lookup_map, Hi. cbn [option_map].
    apply String.eqb_neq in Hne. now rewrite Hne.
  - intros i item Hi He. exists (mergeMenuItem item u).
    split.
    { rewrite lookup_map, Hi. cbn [option_map].
      apply String.eqb_eq in He. now rewrite He. }
    unfold mergeMenuItem. cbn [ApiMenuData.id ApiMenuData.parentId ApiMenuData.type
                                 ApiMenuData.name ApiMenuData.data].
    split; [reflexivity|].
    split; [now destruct (MenuUpdate.parentId u)|].
    split; [now destruct (MenuUpdate.type u)|].
    split; [now destruct (MenuUpdate.name u)|].
    split.
    + intros k Hk. rewrite lookup_insert_ne by congruence.
      rewrite lookup_union.
      destruct (MenuUpdate.data u) as [du|]; cbn [default from_option id].
      * destruct (du !! k), (ApiMenuData.data item !! k); reflexivity.
      * rewrite lookup_empty. now destruct (ApiMenuData.data item !! k).
    + rewrite lookup_insert_eq. reflexivity.
  - intros H. apply map_id_on. intros x Hx.
    apply H in Hx. apply String.eqb_neq in Hx. now rewrite Hx.
Qed.

(** ** restoreMenuItem *)

Lemma restoreUpdater_present (item : ApiMenuData) (l : list ApiMenuData) :
  (exists it, In it l /\ ApiMenuData.id it = ApiMenuData.id item) ->
  restoreUpdater item (Some l) = Some l.
Proof.
  intros (it & Hin & He). unfold restoreUpdater. rewrite findIndex_found.
  replace (existsb _ l) with true; [reflexivity|].
  symmetry. apply existsb_exists. exists it. split; [exact Hin|]. now apply String.eqb_eq.
Qed.

Lemma restoreUpdater_absent (item : ApiMenuData) (l : list ApiMenuData) :
  (forall it, In it l -> ApiMenuData.id it <> ApiMenuData.id item) ->
  restoreUpdater item (Some l) = Some (l ++ [item]).
Proof.
  intros H. unfold restoreUpdater. rewrite findIndex_found.
  replace (existsb _ l) with false; [reflexivity|].
  symmetry. apply not_true_is_false. intros E. apply existsb_exists in E.
  destruct E as (it & Hin & He). apply String.eqb_eq in He. now apply (H it).
Qed.


Lemma restoreFilter_kept (restoreId : string) (l : list RecycleDataItem)
    (m : option (list ApiMenuData)) :
  (restoreFilter restoreId l m).1 =
  List.filter (fun li => negb (String.eqb (RecycleDataItem.id li) restoreId)) l.
Proof.
  revert m. induction l as [|li l IH]; intros m; simpl; [reflexivity|].
  destruct (String.eqb (RecycleDataItem.id li) restoreId); simpl.
  - apply IH.
  - specialize (IH m). destruct (restoreFilter restoreId l m) as [kept m1].
    simpl in *. now rewrite IH.
Qed.

Lemma restoreFilter_restored (restoreId : string) (l : list RecycleDataItem)
    (m : option (list ApiMenuData)) :
  (restoreFilter restoreId l m).2 =
  fold_left (fun acc li => restoreUpdater (RecycleDataItem.deletedItem li) acc)
    (List.filter (fun li => String.eqb (RecycleDataItem.id li) restoreId) l) m.
Proof.
  revert m. induction l as [|li l IH]; intros m; simpl; [reflexivity|].
  destruct (String.eqb (RecycleDataItem.id li) restoreId); simpl.
  - apply IH.
  - specialize (IH m). destruct (restoreFilter restoreId l m) as [kept m1].
    simpl in *. exact IH.
Qed.

Lemma restoreFilter_no_match (restoreId : string) (l : list RecycleDataItem)
    (m : option (list ApiMenuData)) :
  (forall li, In li l -> RecycleDataItem.id li <> restoreId) ->
  restoreFilter restoreId l m = (l, m).
Proof.
  induction l as [|li l IH]; intros H; simpl; [reflexivity|].
  pose proof (H li (or_introl eq_refl)) as Hli. apply String.eqb_neq in Hli. rewrite Hli.
  rewrite IH; [reflexivity|]. intros y Hy. apply H. now right.
Qed.

Lemma getList_setList (c : RecycleCatalogType.t) (l : list RecycleDataItem) (d : RecycleData) :
  getList c (setList c l d) = l.
Proof. now destruct c. Qed.

Lemma getList_setList_other (c c' : RecycleCatalogType.t) (l : list RecycleDataItem)
    (d : RecycleData) :
  c <> c' -> getList c' (setList c l d) = getList c' d.
Proof. destruct c, c'; intros H; try reflexivity; congruence. Qed.

Lemma setList_setList (c : RecycleCatalogType.t) (l l' : list RecycleDataItem) (d : RecycleData) :
  setList c l (setList c l' d) = setList c l d.
Proof. now destruct c. Qed.


(** C3, as stated, fails: the id "2" is removed (its snapshot goes to the
    Http category), an item with id "2" is added again, and the record is
    restored.  The record leaves the recycle store, the catalog is unchanged
    and does not hold the snapshot. *)
Lemma restoreMenuItem_record_lost :
  let w2 := addMenuItem renamed2 (removeMenuItem sampleNanoid "me"%string "2"%string scenarioA) in
  let w3 := restoreMenuItem "r"%string RecycleCatalogType.Http w2 in
  recyleRawData w2 =
    Some (mkRecycleData [RecycleDataItem.mk "r" "30天" "me" http2] [] []) /\
  recyleRawData w3 = Some emptyRecycle /\
  menuRawList w2 = Some [folder1; renamed2] /\
  menuRawList w3 = Some [folder1; renamed2] /\
  ~ In http2 [folder1; renamed2].
Proof.
  repeat split.
  intros [H|[H|[]]]; discriminate H.
Qed.

(** C3, amended: on loaded stores in which [r] is the one record of the
    category with id [restoreId], restoreMenuItem always takes that record
    out of the category (the other records and the other categories stay);
    the catalog gets the snapshot appended when no item has the snapshot's
    id, and is unchanged when one has. *)
Theorem restoreMenuItem_record_and_catalog
    (restoreId : string) (c : RecycleCatalogType.t) (rawList : list ApiMenuData)
    (d : RecycleData) (n : nat) (r : RecycleDataItem) :
  List.filter (fun li => String.eqb (RecycleDataItem.id li) restoreId) (getList c d) = [r] ->
  exists d' m',
    restoreMenuItem restoreId c (mkWorld (Some rawList) (Some d) n) = mkWorld m' (Some d') n /\
    getList c d' =
      List.filter (fun li => negb (String.eqb (RecycleDataItem.id li) restoreId)) (getList c d) /\
    ~ In r (getList c d') /\
    (forall c', c <> c' -> getList c' d' = getList c' d) /\
    ((forall it, In it rawList ->
        ApiMenuData.id it <> ApiMenuData.id (RecycleDataItem.deletedItem r)) ->
     m' = Some (rawList ++ [RecycleDataItem.deletedItem r])) /\
    ((exists it, In it rawList /\
        ApiMenuData.id it = ApiMenuData.id (RecycleDataItem.deletedItem r)) ->
     m' = Some rawList).
Proof.
  intros Hr. unfold restoreMenuItem. cbn [recyleRawData menuRawList nanoidCalls].
  pose proof (restoreFilter_kept restoreId (getList c d) (Some rawList)) as Hk.
  pose proof (restoreFilter_restored restoreId (getList c d) (Some rawList)) as Hm.
  destruct (restoreFilter restoreId (getList c d) (Some rawList)) as [kept m1].
  cbn [fst snd] in Hk, Hm. rewrite Hr in Hm. cbn [fold_left] in Hm.
  exists (setList c kept d), m1. split; [reflexivity|].
  rewrite getList_setList. split; [exact Hk|].
  split.
  { rewrite Hk. intros Hin. apply List.filter_In in Hin. destruct Hin as [_ Hin].
    assert (Hin' : In r [r]) by now left.
    rewrite <- Hr in Hin'. apply List.filter_In in Hin'. destruct Hin' as [_ Hin'].
    rewrite Hin' in Hin. discriminate. }
  split; [intros c' Hc; now apply getList_setList_other|].
  split; intros H; rewrite Hm.
  - now apply restoreUpdater_absent.
  - now apply restoreUpdater_present.
Qed.

(** ** The recycle store under removeMenuItem *)

Lemma categoryEqb_eq (c c' : RecycleCatalogType.t) : categoryEqb c c' = true <-> c = c'.
Proof. destruct c, c'; simpl; split; intros H; congruence. Qed.

Lemma categoryEqb_refl (c : RecycleCatalogType.t) : categoryEqb c c = true.
Proof. now apply categoryEqb_eq. Qed.

Lemma recorded_false (id : string) (l : list RecycleDataItem) :
  recorded id l = false <->
  forall r, In r l -> ApiMenuData.id (RecycleDataItem.deletedItem r) <> id.
Proof.
  unfold recorded. split.
  - intros H r Hr E. apply not_true_iff_false in H. apply H.
    apply existsb_exists. exists r. split; [exact Hr|]. now apply String.eqb_eq.
  - intros H. apply not_true_is_false. intros E. apply existsb_exists in E.
    destruct E as (r & Hr & E). apply String.eqb_eq in E. now apply (H r).
Qed.

Lemma sublist_In {A : Type} (l1 l2 : list A) (x : A) :
  sublist l1 l2 -> In x l1 -> In x l2.
Proof.
  induction 1 as [|y l1 l2 _ IH|y l1 l2 _ IH]; simpl; intros Hx.
  - exact Hx.
  - destruct Hx as [Hx|Hx]; [now left|right; now apply IH].
  - right. now apply IH.
Qed.

Section RemoveStore.

Variable nanoid : nat -> string.
Variable creator : string.

Lemma recycleRecipe_eq (id : string) (item : ApiMenuData) (d : RecycleData) (n : nat) :
  recycleRecipe nanoid creator id item d n =
  match recycleCategory (ApiMenuData.type item) with
  | Some c =>
      if recorded id (getList c d) then (d, n)
      else (setList c (RecycleDataItem.mk (nanoid n) "30天" creator item :: getList c d) d, S n)
  | None => (d, n)
  end.
Proof.
  unfold recycleRecipe, recorded.
  destruct (recycleCategory (ApiMenuData.type item)); [|reflexivity].
  now rewrite findIndex_found.
Qed.

Lemma removeFilter_app (id : string) (a b : list ApiMenuData) (d : option RecycleData) (n : nat) :
  removeFilter nanoid creator id (a ++ b) d n =
  let '(ka, da, na) := removeFilter nanoid creator id a d n in
  let '(kb, db, nb) := removeFilter nanoid creator id b da na in
  (ka ++ kb, db, nb).
Proof.
  revert d n. induction a as [|item a IH]; intros d n; cbn [app removeFilter].
  - now destruct (removeFilter nanoid creator id b d n) as [[kb db] nb].
  - destruct (shouldRemove id item).
    + destruct (recycleUpdater nanoid creator id item d n) as [d1 n1]. apply IH.
    + rewrite IH. destruct (removeFilter nanoid creator id a d n) as [[ka da] na].
      now destruct (removeFilter nanoid creator id b da na) as [[kb db] nb].
Qed.

(** Each category grows at its head, by at most one record per removed item
    routed to it, in the order of removal. *)
Lemma removeFilter_routes (id : string) (l : list ApiMenuData) :
  forall (d : RecycleData) (n : nat) kept od n',
    removeFilter nanoid creator id l (Some d) n = (kept, od, n') ->
    exists d', od = Some d' /\
      forall c, exists news,
        getList c d' = news ++ getList c d /\
        sublist (rev (List.map RecycleDataItem.deletedItem news))
          (List.filter (routedTo id c) l) /\
        Forall (fun r => RecycleDataItem.expiredAt r = "30天"%string /\
                         RecycleDataItem.creator r = creator) news.
Proof.
  induction l as [|item rest IH]; intros d n kept od n' H; cbn [removeFilter] in H.
  - injection H as <- <- <-. exists d. split; [reflexivity|].
    intros c. exists []. repeat split; constructor.
  - unfold routedTo. cbn [List.filter].
    destruct (shouldRemove id item) eqn:Es; cbn [andb].
    + unfold recycleUpdater in H. rewrite recycleRecipe_eq in H.
      destruct (recycleCategory (ApiMenuData.type item)) as [c0|] eqn:Ec.
      * destruct (recorded id (getList c0 d)) eqn:Er.
        -- apply IH in H. destruct H as (d' & -> & H). exists d'. split; [reflexivity|].
           intros c. destruct (H c) as (news & H1 & H2 & H3). exists news.
           repeat split; try assumption.
           destruct (categoryEqb c c0); [now apply sublist_cons|exact H2].
        -- apply IH in H. destruct H as (d' & -> & H). exists d'. split; [reflexivity|].
           intros c. destruct (H c) as (news & H1 & H2 & H3).
           destruct (categoryEqb c c0) eqn:Ecc.
           ++ apply categoryEqb_eq in Ecc. subst c0. rewrite getList_setList in H1.
              exists (news ++ [RecycleDataItem.mk (nanoid n) "30天" creator item]).
              split; [now rewrite <- app_assoc|].
              split.
              ** rewrite List.map_app, List.rev_app_distr. cbn.
                 now apply sublist_skip.
              ** apply Forall_app. split; [exact H3|]. now repeat constructor.
           ++ rewrite getList_setList_other in H1.
              ** exists news. repeat split; assumption.
              ** intros ->. now rewrite categoryEqb_refl in Ecc.
      * apply IH in H. destruct H as (d' & -> & H). exists d'. split; [reflexivity|].
        exact H.
    + destruct (removeFilter nanoid creator id rest (Some d) n) as [[k1 d1] n1] eqn:E.
      injection H as <- <- <-. apply IH in E. exact E.
Qed.

(** Once a category holds a record of the removed id, the rest of the pass
    leaves that category alone. *)
Lemma removeFilter_recorded_stable (id : string) (c : RecycleCatalogType.t) (l : list ApiMenuData) :
  forall (d : RecycleData) (n : nat) kept od n',
    recorded id (getList c d) = true ->
    removeFilter nanoid creator id l (Some d) n = (kept, od, n') ->
    exists d', od = Some d' /\ getList c d' = getList c d.
Proof.
  induction l as [|item rest IH]; intros d n kept od n' Hrec H; cbn [removeFilter] in H.
  - injection H as <- <- <-. now exists d.
  - destruct (shouldRemove id item).
    + unfold recycleUpdater in H. rewrite recycleRecipe_eq in H.
      destruct (recycleCategory (ApiMenuData.type item)) as [c0|]; [|now apply (IH d n kept od n')].
      destruct (recorded id (getList c0 d)) eqn:Er; [now apply (IH d n kept od n')|].
      assert (Hc : c0 <> c) by (intros ->; congruence).
      apply IH in H.
      * destruct H as (d' & -> & H). exists d'. split; [reflexivity|].
        rewrite H. now apply getList_setList_other.
      * now rewrite getList_setList_other.
    + destruct (removeFilter nanoid creator id rest (Some d) n) as [[k1 d1] n1] eqn:E.
      injection H as <- <- <-. now apply (IH d n k1 d1 n1).
Qed.

End RemoveStore.

Section RemoveClaims.

Variable nanoid : nat -> string.
Variable creator : string.

(** C5: from the catalog [folder "1"; Http item "2" in "1"] and a recycle
    store whose Http category has no record of id "1", removeMenuItem "1"
    empties the catalog and puts one record, of snapshot "2", at the head of
    the Http category, the other categories being unchanged: nothing is
    recorded for the folder.  The Markdown kind is routed to Http, each leaf
    kind to its category, the folder kind nowhere; and in general every
    category grows only at its head, by at most one record per removed item
    routed to it. *)
Theorem removeMenuItem_routing :
  (forall (d : RecycleData) (n : nat),
     (forall r, In r (httpList d) ->
        ApiMenuData.id (RecycleDataItem.deletedItem r) <> "1"%string) ->
     removeMenuItem nanoid creator "1" (mkWorld (Some [folder1; http2]) (Some d) n) =
     mkWorld (Some [])
       (Some (mkRecycleData
                (RecycleDataItem.mk (nanoid n) "30天" creator http2 :: httpList d)
                (schemaList d) (requestList d)))
       (S n)) /\
  (recycleCategory MenuItemType.Markdown = Some RecycleCatalogType.Http /\
   recycleCategory MenuItemType.Http = Some RecycleCatalogType.Http /\
   recycleCategory MenuItemType.Schema = Some RecycleCatalogType.Schema /\
   recycleCategory MenuItemType.Request = Some RecycleCatalogType.Request /\
   recycleCategory MenuItemType.Folder = None) /\
  (forall (id : string) (rawList : list ApiMenuData) (d : RecycleData) (n : nat),
     exists kept d' n',
       removeMenuItem nanoid creator id (mkWorld (Some rawList) (Some d) n) =
         mkWorld (Some kept) (Some d') n' /\
       forall c, exists news,
         getList c d' = news ++ getList c d /\
         sublist (rev (List.map RecycleDataItem.deletedItem news))
           (List.filter (routedTo id c) rawList)).
Proof.
  split; [|split].
  - intros d n H. apply (recorded_false "1" (httpList d)) in H.
    unfold removeMenuItem. cbn [menuRawList recyleRawData nanoidCalls removeFilter].
    change (shouldRemove "1" folder1) with true. change (shouldRemove "1" http2) with true.
    cbn iota. unfold recycleUpdater. rewrite recycleRecipe_eq.
    change (recycleCategory (ApiMenuData.type folder1)) with (@None RecycleCatalogType.t).
    cbn iota. rewrite recycleRecipe_eq.
    change (recycleCategory (ApiMenuData.type http2)) with (Some RecycleCatalogType.Http).
    cbn [getList]. rewrite H. reflexivity.
  - repeat split.
  - intros id rawList d n. unfold removeMenuItem. cbn [menuRawList recyleRawData nanoidCalls].
    destruct (removeFilter nanoid creator id rawList (Some d) n) as [[kept od] n'] eqn:E.
    apply removeFilter_routes in E. destruct E as (d' & -> & H).
    exists kept, d', n'. split; [reflexivity|].
    intros c. destruct (H c) as (news & H1 & H2 & _). now exists news.
Qed.

(** C8, amended: in a catalog with unique ids, removing an item of a
    recycle-eligible kind whose id has no record yet in its category puts a
    record with the item as snapshot at the head of that category and takes
    the id out of the catalog; restoring that record then yields a catalog
    that holds the item, equal in every field. *)
Theorem remove_then_restore_roundtrip
    (rawList : list ApiMenuData) (e : ApiMenuData) (c : RecycleCatalogType.t)
    (d : RecycleData) (n : nat) :
  List.NoDup (List.map ApiMenuData.id rawList) ->
  In e rawList ->
  recycleCategory (ApiMenuData.type e) = Some c ->
  (forall r, In r (getList c d) ->
     ApiMenuData.id (RecycleDataItem.deletedItem r) <> ApiMenuData.id e) ->
  exists kept d1 n1 r rest,
    removeMenuItem nanoid creator (ApiMenuData.id e) (mkWorld (Some rawList) (Some d) n) =
      mkWorld (Some kept) (Some d1) n1 /\
    (forall it, In it kept -> ApiMenuData.id it <> ApiMenuData.id e) /\
    getList c d1 = r :: rest /\
    RecycleDataItem.deletedItem r = e /\
    exists l2,
      menuRawList
        (restoreMenuItem (RecycleDataItem.id r) c (mkWorld (Some kept) (Some d1) n1)) =
        Some l2 /\
      In e l2.
Proof.
  intros Hnd Hin Hc Hfresh.
  set (id := ApiMenuData.id e).
  unfold removeMenuItem. cbn [menuRawList recyleRawData nanoidCalls].
  pose proof (removeFilter_kept nanoid creator id rawList (Some d) n) as Hk.
  destruct (removeFilter nanoid creator id rawList (Some d) n) as [[kept od] n1] eqn:E.
  cbn [fst] in Hk.
  assert (Hkept : forall it, In it kept -> ApiMenuData.id it <> id).
  { intros it Hit. rewrite Hk in Hit. apply List.filter_In in Hit.
    destruct Hit as [_ Hit]. apply negb_true_iff, shouldRemove_false in Hit. tauto. }
  apply List.in_split in Hin. destruct Hin as (a & b & ->).
  rewrite removeFilter_app in E.
  destruct (removeFilter nanoid creator id a (Some d) n) as [[ka oa] na] eqn:Ea.
  apply removeFilter_routes in Ea. destruct Ea as (da & -> & Ha).
  destruct (Ha c) as (news & Hnews & Hsub & _).
  assert (Hrec : recorded id (getList c da) = false).
  { apply recorded_false. intros r Hr. rewrite Hnews in Hr.
    apply List.in_app_or in Hr. destruct Hr as [Hr|Hr]; [|now apply Hfresh].
    apply (NoDup_map_middle ApiMenuData.id a e b Hnd).
    apply List.in_or_app. left.
    assert (Hr' : In (RecycleDataItem.deletedItem r)
                    (rev (List.map RecycleDataItem.deletedItem news))).
    { apply List.in_rev. rewrite List.rev_involutive. now apply List.in_map. }
    apply (sublist_In _ _ _ Hsub) in Hr'. apply List.filter_In in Hr'. tauto. }
  cbn [removeFilter] in E.
  assert (Hs : shouldRemove id e = true).
  { unfold shouldRemove, id. now rewrite String.eqb_refl. }
  rewrite Hs in E. unfold recycleUpdater in E. rewrite recycleRecipe_eq, Hc, Hrec in E.
  set (r := RecycleDataItem.mk (nanoid na) "30天" creator e) in E.
  destruct (removeFilter nanoid creator id b (Some (setList c (r :: getList c da) da)) (S na))
    as [[kb ob] nb] eqn:Eb.
  injection E as <- <- <-.
  apply (removeFilter_recorded_stable nanoid creator id c) in Eb.
  2:{ rewrite getList_setList. unfold recorded, r. cbn. unfold id.
      now rewrite String.eqb_refl. }
  destruct Eb as (d1 & -> & Hd1). rewrite getList_setList in Hd1.
  exists (ka ++ kb), d1, nb, r, (getList c da).
  split; [reflexivity|]. split; [exact Hkept|]. split; [exact Hd1|]. split; [reflexivity|].
  unfold restoreMenuItem. cbn [menuRawList recyleRawData nanoidCalls].
  pose proof (restoreFilter_restored (RecycleDataItem.id r) (getList c d1) (Some (ka ++ kb)))
    as Hm.
  destruct (restoreFilter (RecycleDataItem.id r) (getList c d1) (Some (ka ++ kb)))
    as [kept' m'].
  cbn [snd menuRawList] in *. rewrite Hm, Hd1. cbn [List.filter].
  rewrite String.eqb_refl. cbn [fold_left].
  change (RecycleDataItem.deletedItem r) with e.
  rewrite restoreUpdater_absent by exact Hkept.
  assert (He : In e ((ka ++ kb) ++ [e])) by (apply List.in_or_app; right; now left).
  revert He. generalize ((ka ++ kb) ++ [e]).
  generalize (List.filter
                (fun li => String.eqb (RecycleDataItem.id li) (RecycleDataItem.id r))
                (getList c da)).
  intros recs. induction recs as [|x recs IH]; intros l0 Hl0; cbn [fold_left].
  - now exists l0.
  - unfold restoreUpdater at 2.
    destruct (negb _); apply IH; [exact Hl0|].
    apply List.in_or_app. now left.
Qed.

End RemoveClaims.

(** C8, as stated, fails: the catalog [folder "1"; renamed item "2"] lives
    beside an Http record "r" that holds an older snapshot of id "2".
    Removing the live item "2" finds that record by the test of line 100 and
    captures nothing; the only record of id "2" is "r", and restoring it puts
    the older snapshot into the catalog, not the item that was removed. *)
Lemma remove_then_restore_stale_snapshot :
  let w2 := addMenuItem renamed2 (removeMenuItem sampleNanoid "me"%string "2"%string scenarioA) in
  let w3 := removeMenuItem sampleNanoid "me"%string "2"%string w2 in
  let w4 := restoreMenuItem "r"%string RecycleCatalogType.Http w3 in
  menuRawList w2 = Some [folder1; renamed2] /\
  recycleCategory (ApiMenuData.type renamed2) = Some RecycleCatalogType.Http /\
  recyleRawData w2 = Some recycledHttp2 /\
  menuRawList w3 = Some [folder1] /\
  recyleRawData w3 = Some recycledHttp2 /\
  menuRawList w4 = Some [folder1; http2] /\
  recyleRawData w4 = Some emptyRecycle /\
  ~ In renamed2 [folder1; http2] /\
  RecycleDataItem.deletedItem (RecycleDataItem.mk "r" "30天" "me" http2) <> renamed2.
Proof.
  repeat split.
  - intros [H|[H|[]]]; discriminate H.
  - discriminate.
Qed.

(** C2, what the code does: a folder "1" with the Http item "2" is removed,
    the item "2" is added again, and "1" is removed once more.  The test of
    line 100 looks for a record of the removed id "1", finds none, and the
    snapshot of "2" is recorded a second time in the Http category. *)
Theorem removeMenuItem_cascade_duplicates :
  recyleRawData
    (removeMenuItem sampleNanoid "me" "1"
       (addMenuItem http2 (removeMenuItem sampleNanoid "me" "1" scenarioA))) =
  Some (mkRecycleData
          [RecycleDataItem.mk "rr" "30天" "me" http2;
           RecycleDataItem.mk "r" "30天" "me" http2]
          [] []).
Proof. reflexivity. Qed.

(** ** Instances *)

Ltac solve_nodup :=
  repeat (constructor; [simpl; intuition discriminate|]); constructor.

Lemma moveMenuItem_after_follows_drop_witness :
  List.NoDup (List.map ApiMenuData.id [itemA; itemB; itemC]) /\
  In itemA [itemA; itemB; itemC] /\
  In itemB [itemA; itemB; itemC] /\
  ApiMenuData.id itemA <> ApiMenuData.id itemB /\
  exists pre moved post,
    menuRawList
      (moveMenuItem (ApiMenuData.id itemA) (ApiMenuData.id itemB) 1
         (mkWorld (Some [itemA; itemB; itemC]) None 0)) =
      Some (pre ++ itemB :: moved :: post) /\
    ApiMenuData.parentId moved = ApiMenuData.parentId itemB /\
    ApiMenuData.id moved = ApiMenuData.id itemA /\
    ApiMenuData.type moved = ApiMenuData.type itemA /\
    ApiMenuData.name moved = ApiMenuData.name itemA /\
    ApiMenuData.data moved = ApiMenuData.data itemA /\
    (ApiMenuData.parentId itemA = ApiMenuData.parentId itemB -> moved = itemA) /\
    pre ++ itemB :: post =
      List.filter (fun it => negb (String.eqb (ApiMenuData.id it) (ApiMenuData.id itemA)))
        [itemA; itemB; itemC].
Proof.
  assert (H1 : List.NoDup (List.map ApiMenuData.id [itemA; itemB; itemC])) by solve_nodup.
  assert (H2 : In itemA [itemA; itemB; itemC]) by (simpl; auto).
  assert (H3 : In itemB [itemA; itemB; itemC]) by (simpl; auto).
  assert (H4 : ApiMenuData.id itemA <> ApiMenuData.id itemB) by discriminate.
  repeat (split; [assumption|]).
  exact (proj1 moveMenuItem_after_follows_drop [itemA; itemB; itemC] itemA itemB None 0
           H1 H2 H3 H4).
Defined.

Lemma moveMenuItem_noop_witness :
  ((forall y, In y [itemA; itemC] -> ApiMenuData.id y <> "a"%string) \/
   (forall y, In y [itemA; itemC] -> ApiMenuData.id y <> "c"%string) \/
   (0%Z <> 1%Z /\
    (0%Z = 0%Z ->
     forall y, In y [itemA; itemC] -> ApiMenuData.id y = "c"%string ->
               isMenuFolder (ApiMenuData.type y) = false))) /\
  moveMenuItem "a" "c" 0 (mkWorld (Some [itemA; itemC]) None 0) =
  mkWorld (Some [itemA; itemC]) None 0.
Proof.
  assert (H : (forall y, In y [itemA; itemC] -> ApiMenuData.id y <> "a"%string) \/
              (forall y, In y [itemA; itemC] -> ApiMenuData.id y <> "c"%string) \/
              (0%Z <> 1%Z /\
               (0%Z = 0%Z ->
                forall y, In y [itemA; itemC] -> ApiMenuData.id y = "c"%string ->
                          isMenuFolder (ApiMenuData.type y) = false))).
  { right. right. split; [discriminate|].
    intros _ y [<-|[<-|[]]] _; reflexivity. }
  split; [exact H|].
  exact (moveMenuItem_noop "a" "c" 0 [itemA; itemC] None 0 H).
Defined.

Lemma updateMenuItem_merges_witness :
  exists l',
    updateMenuItem renameB (mkWorld (Some [itemA; itemB; itemC]) None 0) =
      mkWorld (Some l') None 0 /\
    l' !! 0 = Some itemA /\
    (exists item',
       l' !! 1 = Some item' /\
       ApiMenuData.name item' = "B"%string /\
       ApiMenuData.parentId item' = Some "f"%string /\
       ApiMenuData.data item' !! "path"%string = Some (JStr "/b") /\
       ApiMenuData.data item' !! "name"%string = Some (JStr "B")).
Proof.
  destruct (updateMenuItem_merges renameB [itemA; itemB; itemC] None 0)
    as (l' & H1 & _ & H3 & H4 & _).
  exists l'. split; [exact H1|]. split.
  - apply (H3 0 itemA); [reflexivity|discriminate].
  - destruct (H4 1 itemB eq_refl eq_refl) as (item' & E1 & _ & E3 & _ & E5 & E6 & E7).
    exists item'. split; [exact E1|]. split; [exact E5|]. split; [exact E3|].
    split; [|exact E7].
    rewrite E6 by discriminate. reflexivity.
Defined.


Lemma restoreMenuItem_record_and_catalog_witness :
  List.filter (fun li => String.eqb (RecycleDataItem.id li) "r")
    (getList RecycleCatalogType.Http recycledHttp2) =
    [RecycleDataItem.mk "r" "30天" "me" http2] /\
  exists d' m',
    restoreMenuItem "r" RecycleCatalogType.Http
      (mkWorld (Some [folder1]) (Some recycledHttp2) 1) = mkWorld m' (Some d') 1 /\
    getList RecycleCatalogType.Http d' = [] /\
    m' = Some [folder1; http2].
Proof.
  split; [reflexivity|].
  destruct (restoreMenuItem_record_and_catalog "r" RecycleCatalogType.Http [folder1]
              recycledHttp2 1 (RecycleDataItem.mk "r" "30天" "me" http2) eq_refl)
    as (d' & m' & H1 & H2 & _ & _ & H5 & _).
  exists d', m'. split; [exact H1|]. split; [exact H2|].
  apply H5. intros it [<-|[]]. discriminate.
Defined.

Lemma removeMenuItem_routing_witness :
  (forall r, In r (httpList emptyRecycle) ->
     ApiMenuData.id (RecycleDataItem.deletedItem r) <> "1"%string) /\
  removeMenuItem sampleNanoid "me" "1" (mkWorld (Some [folder1; http2]) (Some emptyRecycle) 0) =
  mkWorld (Some []) (Some recycledHttp2) 1.
Proof.
  assert (H : forall r, In r (httpList emptyRecycle) ->
                ApiMenuData.id (RecycleDataItem.deletedItem r) <> "1"%string).
  { intros r []. }
  split; [exact H|].
  exact (proj1 (removeMenuItem_routing sampleNanoid "me") emptyRecycle 0 H).
Defined.

Lemma remove_then_restore_roundtrip_witness :
  List.NoDup (List.map ApiMenuData.id [folder1; http2]) /\
  In http2 [folder1; http2] /\
  recycleCategory (ApiMenuData.type http2) = Some RecycleCatalogType.Http /\
  (forall r, In r (getList RecycleCatalogType.Http emptyRecycle) ->
     ApiMenuData.id (RecycleDataItem.deletedItem r) <> ApiMenuData.id http2) /\
  exists kept d1 n1 r rest,
    removeMenuItem sampleNanoid "me" (ApiMenuData.id http2)
      (mkWorld (Some [folder1; http2]) (Some emptyRecycle) 0) =
      mkWorld (Some kept) (Some d1) n1 /\
    (forall it, In it kept -> ApiMenuData.id it <> ApiMenuData.id http2) /\
    getList RecycleCatalogType.Http d1 = r :: rest /\
    RecycleDataItem.deletedItem r = http2 /\
    exists l2,
      menuRawList
        (restoreMenuItem (RecycleDataItem.id r) RecycleCatalogType.Http
           (mkWorld (Some kept) (Some d1) n1)) = Some l2 /\
      In http2 l2.
Proof.
  assert (H1 : List.NoDup (List.map ApiMenuData.id [folder1; http2])) by solve_nodup.
  assert (H2 : In http2 [folder1; http2]) by (simpl; auto).
  assert (H3 : recycleCategory (ApiMenuData.type http2) = Some RecycleCatalogType.Http)
    by reflexivity.
  assert (H4 : forall r, In r (getList RecycleCatalogType.Http emptyRecycle) ->
                 ApiMenuData.id (RecycleDataItem.deletedItem r) <> ApiMenuData.id http2).
  { intros r []. }
  repeat (split; [assumption|]).
  exact (remove_then_restore_roundtrip sampleNanoid "me" [folder1; http2] http2
           RecycleCatalogType.Http emptyRecycle 0 H1 H2 H3 H4).
Defined.

(** On a catalog that is not loaded yet, the default parameter of the
    updater makes moveMenuItem store the empty list. *)
Remark moveMenuItem_unloaded
    (dragKey dropKey : string) (dropPosition : Z) (d : option RecycleData) (n : nat) :
  moveMenuItem dragKey dropKey dropPosition (mkWorld None d n) = mkWorld (Some []) d n.
Proof. reflexivity. Qed.

(** ** Further properties of removeMenuItem *)

Section RemoveMore.

Variable nanoid : nat -> string.
Variable creator : string.

Lemma removeFilter_no_match (id : string) (l : list ApiMenuData) (d : option RecycleData) (n : nat) :
  (forall item, In item l -> shouldRemove id item = false) ->
  removeFilter nanoid creator id l d n = (l, d, n).
Proof.
  induction l as [|item rest IH]; intros H; cbn [removeFilter]; [reflexivity|].
  rewrite (H item (or_introl eq_refl)).
  rewrite IH; [reflexivity|]. intros y Hy. apply H. now right.
Qed.

Lemma removeFilter_unloaded (id : string) (l : list ApiMenuData) (n : nat) :
  removeFilter nanoid creator id l None n =
  (List.filter (fun item => negb (shouldRemove id item)) l, None, n).
Proof.
  induction l as [|item rest IH]; cbn [removeFilter List.filter]; [reflexivity|].
  destruct (shouldRemove id item); cbn [negb recycleUpdater].
  - exact IH.
  - now rewrite IH.
Qed.

(** X1: removeMenuItem with an id that no item has, as id or as parentId,
    returns the world as it is: catalog, recycle store and id counter. *)
Theorem removeMenuItem_absent_id (id : string) (w : World) :
  (forall item, In item (default [] (menuRawList w)) ->
     ApiMenuData.id item <> id /\ ApiMenuData.parentId item <> Some id) ->
  removeMenuItem nanoid creator id w = w.
Proof.
  destruct w as [[l|] d n]; cbn [menuRawList default from_option Datatypes.id];
    intros H; unfold removeMenuItem; cbn [menuRawList recyleRawData nanoidCalls];
    [|reflexivity].
  rewrite removeFilter_no_match; [reflexivity|].
  intros item Hitem. now apply shouldRemove_false, H.
Qed.

(** X2: removeMenuItem is idempotent on every world: a second call with the
    same id finds nothing to remove and records nothing. *)
Theorem removeMenuItem_twice (id : string) (w : World) :
  removeMenuItem nanoid creator id (removeMenuItem nanoid creator id w) =
  removeMenuItem nanoid creator id w.
Proof.
  destruct w as [[l|] d n]; [|reflexivity].
  remember (removeMenuItem nanoid creator id (mkWorld (Some l) d n)) as w1 eqn:Hw1.
  unfold removeMenuItem in Hw1. cbn [menuRawList recyleRawData nanoidCalls] in Hw1.
  pose proof (removeFilter_kept nanoid creator id l d n) as Hk.
  destruct (removeFilter nanoid creator id l d n) as [[kept d1] n1]. cbn [fst] in Hk.
  subst w1. unfold removeMenuItem. cbn [menuRawList recyleRawData nanoidCalls].
  rewrite removeFilter_no_match; [reflexivity|].
  intros item Hitem. rewrite Hk in Hitem. apply List.filter_In in Hitem.
  now apply negb_true_iff.
Qed.

(** X3: while the recycle store is not loaded, removeMenuItem filters the
    catalog all the same, records nothing and draws no record id: the removed
    items are gone for good. *)
Theorem removeMenuItem_store_unloaded (id : string) (rawList : list ApiMenuData) (n : nat) :
  removeMenuItem nanoid creator id (mkWorld (Some rawList) None n) =
  mkWorld (Some (List.filter (fun item => negb (shouldRemove id item)) rawList)) None n.
Proof.
  unfold removeMenuItem. cbn [menuRawList recyleRawData nanoidCalls].
  now rewrite removeFilter_unloaded.
Qed.

(** X4: when a category already holds a record whose snapshot has the removed
    id, removeMenuItem leaves that category's list as it is: the removed item
    and every removed child routed to that category get no record, although
    they leave the catalog. *)
Theorem removeMenuItem_category_frozen
    (id : string) (c : RecycleCatalogType.t) (rawList : list ApiMenuData)
    (d : RecycleData) (n : nat) :
  (exists r, In r (getList c d) /\
             ApiMenuData.id (RecycleDataItem.deletedItem r) = id) ->
  exists d' n',
    removeMenuItem nanoid creator id (mkWorld (Some rawList) (Some d) n) =
      mkWorld (Some (List.filter (fun item => negb (shouldRemove id item)) rawList))
        (Some d') n' /\
    getList c d' = getList c d.
Proof.
  intros (r & Hr & Hid).
  assert (Hrec : recorded id (getList c d) = true).
  { unfold recorded. apply existsb_exists. exists r. split; [exact Hr|].
    now apply String.eqb_eq. }
  unfold removeMenuItem. cbn [menuRawList recyleRawData nanoidCalls].
  pose proof (removeFilter_kept nanoid creator id rawList (Some d) n) as Hk.
  destruct (removeFilter nanoid creator id rawList (Some d) n) as [[kept od] n'] eqn:E.
  cbn [fst] in Hk.
  apply (removeFilter_recorded_stable nanoid creator id c) in E; [|exact Hrec].
  destruct E as (d' & -> & Hd'). exists d', n'. now rewrite Hk.
Qed.

(** X5: adding an item and then removing its id gives back the catalog, when
    no item of the catalog has that id or lies under it; the recycle store is
    the one the updater of lines 84-111 makes for the added item alone. *)
Theorem addMenuItem_then_remove (e : ApiMenuData) (w : World) :
  (forall item, In item (default [] (menuRawList w)) ->
     ApiMenuData.id item <> ApiMenuData.id e /\
     ApiMenuData.parentId item <> Some (ApiMenuData.id e)) ->
  removeMenuItem nanoid creator (ApiMenuData.id e) (addMenuItem e w) =
  mkWorld (Some (default [] (menuRawList w)))
    (recycleUpdater nanoid creator (ApiMenuData.id e) e (recyleRawData w) (nanoidCalls w)).1
    (recycleUpdater nanoid creator (ApiMenuData.id e) e (recyleRawData w) (nanoidCalls w)).2.
Proof.
  intros H. unfold removeMenuItem, addMenuItem. cbn [menuRawList recyleRawData nanoidCalls].
  rewrite removeFilter_app.
  rewrite removeFilter_no_match by (intros item Hitem; now apply shouldRemove_false, H).
  cbn [removeFilter].
  assert (Hs : shouldRemove (ApiMenuData.id e) e = true).
  { unfold shouldRemove. now rewrite String.eqb_refl. }
  rewrite Hs.
  destruct (recycleUpdater nanoid creator (ApiMenuData.id e) e (recyleRawData w) (nanoidCalls w))
    as [d1 n1].
  cbn [fst snd]. now rewrite app_nil_r.
Qed.

End RemoveMore.

(** ** Further properties of restoreMenuItem *)

Lemma setList_getList (c : RecycleCatalogType.t) (d : RecycleData) :
  setList c (getList c d) d = d.
Proof. now destruct c, d. Qed.

Lemma restoreUpdater_grows (item : ApiMenuData) (l : list ApiMenuData) :
  exists ext,
    restoreUpdater item (Some l) = Some (l ++ ext) /\
    (ext = [] \/ ext = [item]) /\
    (List.NoDup (List.map ApiMenuData.id l) ->
     List.NoDup (List.map ApiMenuData.id (l ++ ext))).
Proof.
  destruct (existsb (fun it => String.eqb (ApiMenuData.id it) (ApiMenuData.id item)) l) eqn:E.
  - exists []. rewrite app_nil_r. split; [|split; [now left|auto]].
    apply restoreUpdater_present. apply existsb_exists in E.
    destruct E as (it & Hin & He). apply String.eqb_eq in He. eauto.
  - assert (Hno : forall it, In it l -> ApiMenuData.id it <> ApiMenuData.id item).
    { intros it Hin He. apply not_true_iff_false in E. apply E. apply existsb_exists.
      exists it. split; [exact Hin|]. now apply String.eqb_eq. }
    exists [item]. split; [now apply restoreUpdater_absent|]. split; [now right|].
    intros Hnd. rewrite List.map_app. cbn [List.map].
    apply (Permutation.Permutation_NoDup
             (Permutation.Permutation_cons_append (List.map ApiMenuData.id l)
                (ApiMenuData.id item))).
    constructor; [|exact Hnd].
    intros Hin. apply List.in_map_iff in Hin. destruct Hin as (it & He & Hin).
    now apply (Hno it).
Qed.

Lemma restore_fold_grows (recs : list RecycleDataItem) :
  forall l : list ApiMenuData,
  exists ext,
    fold_left (fun acc li => restoreUpdater (RecycleDataItem.deletedItem li) acc) recs (Some l) =
      Some (l ++ ext) /\
    (forall e, In e ext -> exists r, In r recs /\ RecycleDataItem.deletedItem r = e) /\
    (List.NoDup (List.map ApiMenuData.id l) ->
     List.NoDup (List.map ApiMenuData.id (l ++ ext))).
Proof.
  induction recs as [|r recs IH]; intros l; cbn [fold_left].
  - exists []. rewrite app_nil_r. split; [reflexivity|]. split; [intros e []|auto].
  - destruct (restoreUpdater_grows (RecycleDataItem.deletedItem r) l) as (ext1 & -> & H1 & H2).
    destruct (IH (l ++ ext1)) as (ext2 & -> & H3 & H4).
    exists (ext1 ++ ext2). rewrite app_assoc. split; [reflexivity|]. split.
    + intros e He. apply List.in_app_or in He. destruct He as [He|He].
      * destruct H1 as [->| ->]; [destruct He|]. destruct He as [<-|[]].
        exists r. split; [now left|reflexivity].
      * destruct (H3 e He) as (r' & Hr' & <-). exists r'. split; [now right|reflexivity].
    + intros Hnd. apply H4, H2, Hnd.
Qed.

Lemma restore_fold_unloaded (recs : list RecycleDataItem) :
  fold_left (fun acc li => restoreUpdater (RecycleDataItem.deletedItem li) acc) recs None = None.
Proof. induction recs as [|r recs IH]; cbn [fold_left restoreUpdater]; [reflexivity|exact IH]. Qed.

(** X6: restoreMenuItem with a record id that the category does not hold
    returns the world as it is. *)
Theorem restoreMenuItem_unknown_id
    (restoreId : string) (c : RecycleCatalogType.t) (w : World) :
  (forall d, recyleRawData w = Some d ->
     forall li, In li (getList c d) -> RecycleDataItem.id li <> restoreId) ->
  restoreMenuItem restoreId c w = w.
Proof.
  destruct w as [m [d|] n]; cbn [recyleRawData]; intros H; unfold restoreMenuItem;
    cbn [recyleRawData menuRawList nanoidCalls]; [|reflexivity].
  rewrite restoreFilter_no_match by (apply (H d eq_refl)).
  now rewrite setList_getList.
Qed.

(** X7: on a loaded catalog restoreMenuItem only appends: the catalog
    afterwards is the old one followed by snapshots of records that had the
    given id, and if the ids of the catalog were pairwise different they
    still are. *)
Theorem restoreMenuItem_appends_unique
    (restoreId : string) (c : RecycleCatalogType.t) (rawList : list ApiMenuData)
    (d : RecycleData) (n : nat) :
  exists ext,
    menuRawList (restoreMenuItem restoreId c (mkWorld (Some rawList) (Some d) n)) =
      Some (rawList ++ ext) /\
    (forall e, In e ext ->
       exists r, In r (getList c d) /\ RecycleDataItem.id r = restoreId /\
                 RecycleDataItem.deletedItem r = e) /\
    (List.NoDup (List.map ApiMenuData.id rawList) ->
     List.NoDup (List.map ApiMenuData.id (rawList ++ ext))).
Proof.
  unfold restoreMenuItem. cbn [recyleRawData menuRawList nanoidCalls].
  pose proof (restoreFilter_restored restoreId (getList c d) (Some rawList)) as Hm.
  destruct (restoreFilter restoreId (getList c d) (Some rawList)) as [kept m1].
  cbn [snd menuRawList] in *. subst m1.
  destruct (restore_fold_grows
              (List.filter (fun li => String.eqb (RecycleDataItem.id li) restoreId) (getList c d))
              rawList) as (ext & -> & H1 & H2).
  exists ext. split; [reflexivity|]. split; [|exact H2].
  intros e He. destruct (H1 e He) as (r & Hr & <-).
  apply List.filter_In in Hr. destruct Hr as [Hr Hid]. apply String.eqb_eq in Hid.
  exists r. auto.
Qed.

(** X8: while the catalog is not loaded, restoreMenuItem still takes the
    records with the given id out of the category, and the catalog stays
    unloaded: their snapshots are restored nowhere. *)
Theorem restoreMenuItem_catalog_unloaded
    (restoreId : string) (c : RecycleCatalogType.t) (d : RecycleData) (n : nat) :
  restoreMenuItem restoreId c (mkWorld None (Some d) n) =
  mkWorld None
    (Some (setList c
             (List.filter (fun li => negb (String.eqb (RecycleDataItem.id li) restoreId))
                (getList c d)) d))
    n.
Proof.
  unfold restoreMenuItem. cbn [recyleRawData menuRawList nanoidCalls].
  pose proof (restoreFilter_kept restoreId (getList c d) None) as Hk.
  pose proof (restoreFilter_restored restoreId (getList c d) None) as Hm.
  destruct (restoreFilter restoreId (getList c d) None) as [kept m1].
  cbn [fst snd] in *. rewrite restore_fold_unloaded in Hm. now subst.
Qed.

Section RoundTrip.

Variable nanoid : nat -> string.
Variable creator : string.

(** X9: in a catalog with unique ids, for an item of a recycle-eligible kind
    that has no child in the catalog, whose id has no record in its category
    and whose new record id is not taken there, removeMenuItem followed by
    restoreMenuItem of the new record moves the item to the end of the
    catalog and gives back the recycle store exactly; one record id was
    drawn. *)
Theorem remove_restore_exact
    (rawList : list ApiMenuData) (e : ApiMenuData) (c : RecycleCatalogType.t)
    (d : RecycleData) (n : nat) :
  List.NoDup (List.map ApiMenuData.id rawList) ->
  In e rawList ->
  recycleCategory (ApiMenuData.type e) = Some c ->
  (forall item, In item rawList -> ApiMenuData.parentId item <> Some (ApiMenuData.id e)) ->
  (forall r, In r (getList c d) ->
     ApiMenuData.id (RecycleDataItem.deletedItem r) <> ApiMenuData.id e /\
     RecycleDataItem.id r <> nanoid n) ->
  restoreMenuItem (nanoid n) c
    (removeMenuItem nanoid creator (ApiMenuData.id e) (mkWorld (Some rawList) (Some d) n)) =
  mkWorld
    (Some (List.filter (fun it => negb (String.eqb (ApiMenuData.id it) (ApiMenuData.id e)))
             rawList ++ [e]))
    (Some d) (S n).
Proof.
  intros Hnd Hin Hc Hchild Hfresh.
  apply List.in_split in Hin. destruct Hin as (a & b & ->).
  pose proof (NoDup_map_middle ApiMenuData.id a e b Hnd) as Hid.
  assert (Hkeep : forall item, In item (a ++ b) -> shouldRemove (ApiMenuData.id e) item = false).
  { intros item Hitem. apply shouldRemove_false. split; [now apply Hid|].
    apply Hchild. apply List.in_app_or in Hitem. apply List.in_or_app.
    destruct Hitem; [now left|right; now right]. }
  rewrite filter_without_drag by exact Hid.
  unfold removeMenuItem. cbn [menuRawList recyleRawData nanoidCalls].
  rewrite removeFilter_app.
  rewrite removeFilter_no_match
    by (intros item Hitem; apply Hkeep, List.in_or_app; now left).
  cbn [removeFilter].
  assert (Hs : shouldRemove (ApiMenuData.id e) e = true).
  { unfold shouldRemove. now rewrite String.eqb_refl. }
  rewrite Hs. unfold recycleUpdater. rewrite recycleRecipe_eq, Hc.
  assert (Hrec : recorded (ApiMenuData.id e) (getList c d) = false).
  { apply recorded_false. intros r Hr. now apply Hfresh. }
  rewrite Hrec.
  rewrite removeFilter_no_match
    by (intros item Hitem; apply Hkeep, List.in_or_app; now right).
  unfold restoreMenuItem. cbn [menuRawList recyleRawData nanoidCalls].
  rewrite getList_setList. cbn [restoreFilter RecycleDataItem.id RecycleDataItem.deletedItem].
  rewrite String.eqb_refl.
  rewrite restoreFilter_no_match by (intros li Hli; now apply Hfresh).
  rewrite setList_setList, setList_getList.
  rewrite restoreUpdater_absent; [reflexivity|].
  intros it Hit. now apply Hid.
Qed.

End RoundTrip.

(** ** Further properties of moveMenuItem *)

Section MoveInside.

Variables drag drop_ : ApiMenuData.
Hypothesis keys_differ : ApiMenuData.id drag <> ApiMenuData.id drop_.
Hypothesis drop_is_folder : isMenuFolder (ApiMenuData.type drop_) = true.

Local Abbreviation neutral a :=
  (forall y, In y a ->
     ApiMenuData.id y <> ApiMenuData.id drag /\ ApiMenuData.id y <> ApiMenuData.id drop_).

Lemma moveUpdater_inside_forward (a b1 b2 : list ApiMenuData) :
  neutral a -> neutral b1 -> neutral b2 ->
  moveUpdater (ApiMenuData.id drag) (ApiMenuData.id drop_) 0
    (Some (a ++ drag :: b1 ++ drop_ :: b2)) =
  a ++ b1 ++ drop_ :: setParentId (Some (ApiMenuData.id drop_)) drag :: b2.
Proof.
  intros Ha Hb1 Hb2. unfold moveUpdater. cbn [default from_option id].
  rewrite (reduce_forward drag drop_ keys_differ) by assumption.
  cbn [dragMenu dropMenu dragMenuIdx dropMenuIdx].
  rewrite drop_is_folder. cbn [Z.eqb andb].
  rewrite alter_middle. apply moveArrayItem_forward.
Qed.

Lemma moveUpdater_inside_backward (a1 a2 b : list ApiMenuData) :
  neutral a1 -> neutral a2 -> neutral b ->
  moveUpdater (ApiMenuData.id drag) (ApiMenuData.id drop_) 0
    (Some (a1 ++ drop_ :: a2 ++ drag :: b)) =
  a1 ++ drop_ :: setParentId (Some (ApiMenuData.id drop_)) drag :: a2 ++ b.
Proof.
  intros Ha1 Ha2 Hb. unfold moveUpdater. cbn [default from_option id].
  rewrite (reduce_backward drag drop_ keys_differ) by assumption.
  cbn [dragMenu dropMenu dragMenuIdx dropMenuIdx].
  rewrite drop_is_folder. cbn [Z.eqb andb].
  replace (a1 ++ drop_ :: a2 ++ drag :: b) with ((a1 ++ drop_ :: a2) ++ drag :: b)
    by (now rewrite <- app_assoc).
  replace (length a1 + S (length a2)) with (length (a1 ++ drop_ :: a2))
    by (rewrite length_app; reflexivity).
  rewrite alter_middle.
  replace (length (a1 ++ drop_ :: a2)) with (length a1 + S (length a2))
    by (rewrite length_app; reflexivity).
  rewrite <- app_assoc. apply moveArrayItem_backward.
Qed.

End MoveInside.

(** The list that a drop inside a folder produces, with the moved item
    written as the assignment of line 195 makes it. *)
Lemma moveMenuItem_inside_shape
    (rawList : list ApiMenuData) (drag drop_ : ApiMenuData)
    (d : option RecycleData) (n : nat) :
  List.NoDup (List.map ApiMenuData.id rawList) ->
  In drag rawList -> In drop_ rawList ->
  ApiMenuData.id drag <> ApiMenuData.id drop_ ->
  isMenuFolder (ApiMenuData.type drop_) = true ->
  exists pre post,
    moveMenuItem (ApiMenuData.id drag) (ApiMenuData.id drop_) 0 (mkWorld (Some rawList) d n) =
      mkWorld
        (Some (pre ++ drop_ :: setParentId (Some (ApiMenuData.id drop_)) drag :: post)) d n /\
    pre ++ drop_ :: post =
      List.filter (fun it => negb (String.eqb (ApiMenuData.id it) (ApiMenuData.id drag)))
        rawList.
Proof.
  intros Hnd Hdrag Hdrop Hne Hfolder.
  unfold moveMenuItem. cbn [menuRawList recyleRawData nanoidCalls].
  apply List.in_split in Hdrag. destruct Hdrag as (a & b & ->).
  apply List.in_app_or in Hdrop. destruct Hdrop as [Hdrop|[Hdrop|Hdrop]].
  - apply List.in_split in Hdrop. destruct Hdrop as (a1 & a2 & ->).
    rewrite <- app_assoc in Hnd. cbn [app] in Hnd.
    assert (Hd : forall y, In y (a1 ++ a2 ++ drag :: b) ->
                           ApiMenuData.id y <> ApiMenuData.id drop_).
    { apply (NoDup_map_middle ApiMenuData.id a1 drop_ (a2 ++ drag :: b)), Hnd. }
    assert (Hg : forall y, In y ((a1 ++ drop_ :: a2) ++ b) ->
                           ApiMenuData.id y <> ApiMenuData.id drag).
    { apply (NoDup_map_middle ApiMenuData.id (a1 ++ drop_ :: a2) drag b).
      now rewrite <- app_assoc. }
    exists a1, (a2 ++ b). rewrite <- app_assoc. cbn [app]. split.
    + do 2 f_equal.
      apply moveUpdater_inside_backward; [exact Hne|exact Hfolder| | |]; intros y Hy; split.
      * apply Hg. rewrite <- app_assoc. apply List.in_or_app. now left.
      * apply Hd. apply List.in_or_app. now left.
      * apply Hg. rewrite <- app_assoc. apply List.in_or_app. right. right.
        apply List.in_or_app. now left.
      * apply Hd. apply List.in_or_app. right. apply List.in_or_app. now left.
      * apply Hg. apply List.in_or_app. now right.
      * apply Hd. apply List.in_or_app. right. apply List.in_or_app. right. now right.
    + replace (a1 ++ drop_ :: a2 ++ drag :: b) with ((a1 ++ drop_ :: a2) ++ drag :: b)
        by (now rewrite <- app_assoc).
      rewrite filter_without_drag by exact Hg. now rewrite <- app_assoc.
  - congruence.
  - apply List.in_split in Hdrop. destruct Hdrop as (b1 & b2 & ->).
    assert (Hg : forall y, In y (a ++ b1 ++ drop_ :: b2) ->
                           ApiMenuData.id y <> ApiMenuData.id drag).
    { apply (NoDup_map_middle ApiMenuData.id a drag (b1 ++ drop_ :: b2)), Hnd. }
    assert (Hd : forall y, In y ((a ++ drag :: b1) ++ b2) ->
                           ApiMenuData.id y <> ApiMenuData.id drop_).
    { apply (NoDup_map_middle ApiMenuData.id (a ++ drag :: b1) drop_ b2).
      now rewrite <- app_assoc. }
    exists (a ++ b1), b2. rewrite <- !app_assoc. split.
    + do 2 f_equal.
      apply moveUpdater_inside_forward; [exact Hne|exact Hfolder| | |]; intros y Hy; split.
      * apply Hg. apply List.in_or_app. now left.
      * apply Hd. rewrite <- app_assoc. apply List.in_or_app. now left.
      * apply Hg. apply List.in_or_app. right. apply List.in_or_app. now left.
      * apply Hd. rewrite <- app_assoc. apply List.in_or_app. right. right.
        apply List.in_or_app. now left.
      * apply Hg. apply List.in_or_app. right. apply List.in_or_app. right. now right.
      * apply Hd. apply List.in_or_app. now right.
    + now rewrite filter_without_drag by exact Hg.
Qed.

(** X10: in a catalog with unique ids, dropping an item inside (position 0)
    a different item of a folder kind puts right behind the folder an item
    whose parentId is the folder's id and whose id, type, name and data are
    those of the dragged item; every other item keeps its place in the
    order, and the recycle store is untouched. *)
Theorem moveMenuItem_inside_folder
    (rawList : list ApiMenuData) (drag drop_ : ApiMenuData)
    (d : option RecycleData) (n : nat) :
  List.NoDup (List.map ApiMenuData.id rawList) ->
  In drag rawList -> In drop_ rawList ->
  ApiMenuData.id drag <> ApiMenuData.id drop_ ->
  isMenuFolder (ApiMenuData.type drop_) = true ->
  exists pre moved post,
    moveMenuItem (ApiMenuData.id drag) (ApiMenuData.id drop_) 0 (mkWorld (Some rawList) d n) =
      mkWorld (Some (pre ++ drop_ :: moved :: post)) d n /\
    ApiMenuData.parentId moved = Some (ApiMenuData.id drop_) /\
    ApiMenuData.id moved = ApiMenuData.id drag /\
    ApiMenuData.type moved = ApiMenuData.type drag /\
    ApiMenuData.name moved = ApiMenuData.name drag /\
    ApiMenuData.data moved = ApiMenuData.data drag /\
    pre ++ drop_ :: post =
      List.filter (fun it => negb (String.eqb (ApiMenuData.id it) (ApiMenuData.id drag)))
        rawList.
Proof.
  intros Hnd Hdrag Hdrop Hne Hfolder.
  destruct (moveMenuItem_inside_shape rawList drag drop_ d n Hnd Hdrag Hdrop Hne Hfolder)
    as (pre & post & H1 & H2).
  exists pre, (setParentId (Some (ApiMenuData.id drop_)) drag), post.
  split; [exact H1|].
  split; [reflexivity|]. split; [reflexivity|]. split; [reflexivity|].
  split; [reflexivity|]. split; [reflexivity|exact H2].
Qed.

Lemma moveArrayItem_Permutation {A : Type} (l : list A) (i t : nat) :
  Permutation (moveArrayItem l i t) l.
Proof.
  unfold moveArrayItem. destruct (l !! i) as [x|] eqn:E; [|reflexivity].
  set (target := if i <? t then t - 1 else t).
  rewrite <- Permutation_middle, take_drop.
  symmetry. now apply delete_Permutation.
Qed.

Lemma map_sansParent_alter (p : option string) (l : list ApiMenuData) :
  forall i, List.map sansParent (alter (setParentId p) i l) = List.map sansParent l.
Proof.
  induction l as [|x l IH]; intros [|i]; try reflexivity.
  change (sansParent x :: List.map sansParent (alter (setParentId p) i l) =
          sansParent x :: List.map sansParent l). now rewrite IH.
Qed.

Lemma moveUpdater_Permutation (dragKey dropKey : string) (pos : Z) (l : list ApiMenuData) :
  Permutation (List.map sansParent (moveUpdater dragKey dropKey pos (Some l)))
    (List.map sansParent l).
Proof.
  unfold moveUpdater. cbn [default from_option id].
  destruct (dragMenu _) as [dragM|]; [|reflexivity].
  destruct (dropMenu _) as [dropM|]; [|reflexivity].
  destruct (dragMenuIdx _) as [i|]; [|reflexivity].
  destruct (dropMenuIdx _) as [j|]; [|reflexivity].
  destruct (isMenuFolder (ApiMenuData.type dropM) && (pos =? 0)%Z).
  - rewrite (Permutation_map sansParent (moveArrayItem_Permutation _ _ _)).
    now rewrite map_sansParent_alter.
  - destruct (pos =? 1)%Z; [|reflexivity].
    destruct (negb _).
    + rewrite (Permutation_map sansParent (moveArrayItem_Permutation _ _ _)).
      now rewrite map_sansParent_alter.
    + apply Permutation_map, moveArrayItem_Permutation.
Qed.

(** X11: whatever the keys and the position, moveMenuItem on a loaded catalog
    neither creates nor destroys items: up to order the items are the same
    in every field but parentId, the length is the same, ids that were
    pairwise different still are, and the recycle store is untouched. *)
Theorem moveMenuItem_keeps_items
    (dragKey dropKey : string) (dropPosition : Z) (rawList : list ApiMenuData)
    (d : option RecycleData) (n : nat) :
  exists l',
    moveMenuItem dragKey dropKey dropPosition (mkWorld (Some rawList) d n) =
      mkWorld (Some l') d n /\
    Permutation (List.map sansParent l') (List.map sansParent rawList) /\
    length l' = length rawList /\
    (List.NoDup (List.map ApiMenuData.id rawList) -> List.NoDup (List.map ApiMenuData.id l')).
Proof.
  exists (moveUpdater dragKey dropKey dropPosition (Some rawList)).
  pose proof (moveUpdater_Permutation dragKey dropKey dropPosition rawList) as HP.
  split; [reflexivity|]. split; [exact HP|]. split.
  - apply Permutation_length in HP. now rewrite !List.length_map in HP.
  - assert (Hid : forall l : list ApiMenuData,
               List.map ApiMenuData.id l = List.map (fun t => t.1.1.1) (List.map sansParent l)).
    { intros l. rewrite List.map_map. reflexivity. }
    rewrite !Hid. apply Permutation.Permutation_NoDup.
    apply Permutation_map. now symmetry.
Qed.

(** ** Further properties of updateMenuItem *)

Lemma nameOr_again (un : option string) (nm : string) :
  un <> Some ""%string ->
  nameOr un (default nm un) = nameOr un nm.
Proof.
  destruct un as [s|]; cbn [nameOr default from_option id]; [|reflexivity].
  intros H. destruct (String.eqb s "") eqn:E; [|reflexivity].
  apply String.eqb_eq in E. congruence.
Qed.

Lemma mergeMenuItem_twice (item : ApiMenuData) (u : MenuUpdate) :
  MenuUpdate.name u <> Some ""%string ->
  mergeMenuItem (mergeMenuItem item u) u = mergeMenuItem item u.
Proof.
  intros Hname. unfold mergeMenuItem.
  cbn [ApiMenuData.id ApiMenuData.parentId ApiMenuData.type ApiMenuData.name ApiMenuData.data].
  rewrite nameOr_again by exact Hname.
  f_equal.
  - now destruct (MenuUpdate.parentId u).
  - now destruct (MenuUpdate.type u).
  - now destruct (MenuUpdate.name u).
  - apply map_eq. intros k.
    destruct (decide (k = "name"%string)) as [->|Hk].
    + now rewrite !lookup_insert_eq.
    + rewrite !lookup_insert_ne by congruence.
      rewrite !lookup_union, lookup_insert_ne by congruence.
      rewrite lookup_union.
      now destruct (default ∅ (MenuUpdate.data u) !! k), (ApiMenuData.data item !! k).
Qed.

(** X12: an update whose name is not the empty string is idempotent:
    applying updateMenuItem twice with it gives the world of the first
    application. *)
Theorem updateMenuItem_twice (u : MenuUpdate) (w : World) :
  MenuUpdate.name u <> Some ""%string ->
  updateMenuItem u (updateMenuItem u w) = updateMenuItem u w.
Proof.
  intros Hname. destruct w as [[l|] d n]; [|reflexivity].
  unfold updateMenuItem. cbn [menuRawList recyleRawData nanoidCalls option_map].
  do 2 f_equal. rewrite List.map_map. apply List.map_ext. intros item.
  destruct (String.eqb (ApiMenuData.id item) (MenuUpdate.id u)) eqn:E.
  - change (ApiMenuData.id (mergeMenuItem item u)) with (ApiMenuData.id item).
    rewrite E. now apply mergeMenuItem_twice.
  - now rewrite E.
Qed.

(** X13: updateMenuItem never changes an id or the order of the ids, for
    any update and any world; ids that were pairwise different still are. *)
Theorem updateMenuItem_keeps_ids (u : MenuUpdate) (w : World) :
  option_map (List.map ApiMenuData.id) (menuRawList (updateMenuItem u w)) =
  option_map (List.map ApiMenuData.id) (menuRawList w).
Proof.
  destruct w as [[l|] d n]; [|reflexivity].
  unfold updateMenuItem. cbn [menuRawList option_map]. f_equal.
  rewrite List.map_map. apply List.map_ext. intros item.
  now destruct (String.eqb (ApiMenuData.id item) (MenuUpdate.id u)).
Qed.

(** ** The record ids drawn by removeMenuItem *)

Section RecordIds.

Variable nanoid : nat -> string.
Variable creator : string.

Lemma removeFilter_record_ids (id : string) (l : list ApiMenuData) :
  forall (d : RecycleData) (n : nat) kept od n',
    removeFilter nanoid creator id l (Some d) n = (kept, od, n') ->
    exists d' newsH newsS newsR,
      od = Some d' /\ n <= n' /\
      httpList d' = newsH ++ httpList d /\
      schemaList d' = newsS ++ schemaList d /\
      requestList d' = newsR ++ requestList d /\
      Permutation (List.map RecycleDataItem.id (newsH ++ newsS ++ newsR))
        (List.map nanoid (seq n (n' - n))).
Proof.
  induction l as [|item rest IH]; intros d n kept od n' H; cbn [removeFilter] in H.
  - injection H as <- <- <-. exists d, [], [], [].
    rewrite Nat.sub_diag. repeat split; auto.
  - destruct (shouldRemove id item).
    + unfold recycleUpdater in H. rewrite recycleRecipe_eq in H.
      destruct (recycleCategory (ApiMenuData.type item)) as [c0|]; [|now apply (IH d n kept)].
      destruct (recorded id (getList c0 d)); [now apply (IH d n kept)|].
      apply IH in H. destruct H as (d' & nH & nS & nR & -> & Hle & HH & HS & HR & HP).
      assert (Hseq : seq n (n' - n) = n :: seq (S n) (n' - S n)).
      { replace (n' - n) with (S (n' - S n)) by lia. reflexivity. }
      rewrite Hseq. cbn [List.map].
      set (r := RecycleDataItem.mk (nanoid n) "30天" creator item) in *.
      change (nanoid n) with (RecycleDataItem.id r).
      destruct c0; cbn [setList getList httpList schemaList requestList] in HH, HS, HR.
      * exists d', (nH ++ [r]), nS, nR.
        split; [reflexivity|]. split; [lia|].
        split; [now rewrite <- app_assoc|]. split; [exact HS|]. split; [exact HR|].
        rewrite <- app_assoc. cbn [app]. rewrite List.map_app. cbn [List.map].
        symmetry. apply Permutation_cons_app. rewrite <- List.map_app. now symmetry.
      * exists d', nH, (nS ++ [r]), nR.
        split; [reflexivity|]. split; [lia|].
        split; [exact HH|]. split; [now rewrite <- app_assoc|]. split; [exact HR|].
        rewrite <- app_assoc. cbn [app]. rewrite app_assoc, List.map_app. cbn [List.map].
        symmetry. apply Permutation_cons_app. rewrite <- List.map_app, <- app_assoc.
        now symmetry.
      * exists d', nH, nS, (nR ++ [r]).
        split; [reflexivity|]. split; [lia|].
        split; [exact HH|]. split; [exact HS|]. split; [now rewrite <- app_assoc|].
        rewrite !app_assoc, List.map_app. cbn [List.map].
        symmetry. apply Permutation_cons_app. rewrite app_nil_r, <- !app_assoc.
        now symmetry.
    + destruct (removeFilter nanoid creator id rest (Some d) n) as [[k1 d1] n1] eqn:E.
      injection H as <- <- <-. now apply (IH d n k1 d1 n1).
Qed.

(** X14: on loaded stores removeMenuItem puts its new records at the heads
    of the three categories, and their ids are, up to order, the results of
    the calls of nanoid numbered from the old counter to the new one: every
    call made gives the id of exactly one new record. *)
Theorem removeMenuItem_record_ids
    (id : string) (rawList : list ApiMenuData) (d : RecycleData) (n : nat) :
  exists kept d' n' newsH newsS newsR,
    removeMenuItem nanoid creator id (mkWorld (Some rawList) (Some d) n) =
      mkWorld (Some kept) (Some d') n' /\
    n <= n' /\
    httpList d' = newsH ++ httpList d /\
    schemaList d' = newsS ++ schemaList d /\
    requestList d' = newsR ++ requestList d /\
    Permutation (List.map RecycleDataItem.id (newsH ++ newsS ++ newsR))
      (List.map nanoid (seq n (n' - n))).
Proof.
  unfold removeMenuItem. cbn [menuRawList recyleRawData nanoidCalls].
  destruct (removeFilter nanoid creator id rawList (Some d) n) as [[kept od] n'] eqn:E.
  apply removeFilter_record_ids in E.
  destruct E as (d' & nH & nS & nR & -> & H).
  now exists kept, d', n', nH, nS, nR.
Qed.

End RecordIds.

(** ** Instances of the further properties *)

Lemma removeMenuItem_absent_id_witness :
  (forall item, In item (default [] (menuRawList scenarioA)) ->
     ApiMenuData.id item <> "9"%string /\ ApiMenuData.parentId item <> Some "9"%string) /\
  removeMenuItem sampleNanoid "me" "9" scenarioA = scenarioA.
Proof.
  assert (H : forall item, In item (default [] (menuRawList scenarioA)) ->
                ApiMenuData.id item <> "9"%string /\
                ApiMenuData.parentId item <> Some "9"%string).
  { intros item [<-|[<-|[]]]; split; discriminate. }
  split; [exact H|].
  exact (removeMenuItem_absent_id sampleNanoid "me" "9" scenarioA H).
Defined.

Lemma removeMenuItem_category_frozen_witness :
  (exists r,
     In r (getList RecycleCatalogType.Http
             (mkRecycleData
                [RecycleDataItem.mk "r" "30天" "me" (entry "1" None MenuItemType.Http)] [] [])) /\
     ApiMenuData.id (RecycleDataItem.deletedItem r) = "1"%string) /\
  exists d' n',
    removeMenuItem sampleNanoid "me" "1"
      (mkWorld (Some [folder1; http2])
         (Some (mkRecycleData
                  [RecycleDataItem.mk "r" "30天" "me" (entry "1" None MenuItemType.Http)] [] []))
         1) =
      mkWorld
        (Some (List.filter (fun item => negb (shouldRemove "1" item)) [folder1; http2]))
        (Some d') n' /\
    getList RecycleCatalogType.Http d' =
      [RecycleDataItem.mk "r" "30天" "me" (entry "1" None MenuItemType.Http)].
Proof.
  assert (H : exists r,
             In r (getList RecycleCatalogType.Http
                     (mkRecycleData
                        [RecycleDataItem.mk "r" "30天" "me" (entry "1" None MenuItemType.Http)]
                        [] [])) /\
             ApiMenuData.id (RecycleDataItem.deletedItem r) = "1"%string).
  { eexists. split; [left; reflexivity|reflexivity]. }
  split; [exact H|].
  exact (removeMenuItem_category_frozen sampleNanoid "me" "1" RecycleCatalogType.Http
           [folder1; http2] _ 1 H).
Defined.

Lemma addMenuItem_then_remove_witness :
  (forall item, In item (default [] (menuRawList (mkWorld (Some [folder1]) (Some emptyRecycle) 0))) ->
     ApiMenuData.id item <> ApiMenuData.id http2 /\
     ApiMenuData.parentId item <> Some (ApiMenuData.id http2)) /\
  removeMenuItem sampleNanoid "me" (ApiMenuData.id http2)
    (addMenuItem http2 (mkWorld (Some [folder1]) (Some emptyRecycle) 0)) =
  mkWorld (Some [folder1]) (Some recycledHttp2) 1.
Proof.
  assert (H : forall item,
             In item (default [] (menuRawList (mkWorld (Some [folder1]) (Some emptyRecycle) 0))) ->
             ApiMenuData.id item <> ApiMenuData.id http2 /\
             ApiMenuData.parentId item <> Some (ApiMenuData.id http2)).
  { intros item [<-|[]]; split; discriminate. }
  split; [exact H|].
  exact (addMenuItem_then_remove sampleNanoid "me" http2
           (mkWorld (Some [folder1]) (Some emptyRecycle) 0) H).
Defined.

Lemma restoreMenuItem_unknown_id_witness :
  (forall d, recyleRawData (mkWorld (Some [folder1]) (Some recycledHttp2) 1) = Some d ->
     forall li, In li (getList RecycleCatalogType.Http d) ->
                RecycleDataItem.id li <> "zz"%string) /\
  restoreMenuItem "zz" RecycleCatalogType.Http (mkWorld (Some [folder1]) (Some recycledHttp2) 1) =
  mkWorld (Some [folder1]) (Some recycledHttp2) 1.
Proof.
  assert (H : forall d,
             recyleRawData (mkWorld (Some [folder1]) (Some recycledHttp2) 1) = Some d ->
             forall li, In li (getList RecycleCatalogType.Http d) ->
                        RecycleDataItem.id li <> "zz"%string).
  { intros d [= <-] li [<-|[]]. discriminate. }
  split; [exact H|].
  exact (restoreMenuItem_unknown_id "zz" RecycleCatalogType.Http _ H).
Defined.

Lemma restoreMenuItem_appends_unique_witness :
  List.NoDup (List.map ApiMenuData.id [folder1]) /\
  exists ext,
    menuRawList
      (restoreMenuItem "r" RecycleCatalogType.Http
         (mkWorld (Some [folder1]) (Some recycledHttp2) 1)) = Some ([folder1] ++ ext) /\
    List.NoDup (List.map ApiMenuData.id ([folder1] ++ ext)).
Proof.
  assert (H : List.NoDup (List.map ApiMenuData.id [folder1])) by solve_nodup.
  split; [exact H|].
  destruct (restoreMenuItem_appends_unique "r" RecycleCatalogType.Http [folder1]
              recycledHttp2 1) as (ext & H1 & _ & H3).
  exists ext. split; [exact H1|exact (H3 H)].
Defined.

Lemma remove_restore_exact_witness :
  List.NoDup (List.map ApiMenuData.id [folder1; http2]) /\
  In http2 [folder1; http2] /\
  recycleCategory (ApiMenuData.type http2) = Some RecycleCatalogType.Http /\
  (forall item, In item [folder1; http2] ->
     ApiMenuData.parentId item <> Some (ApiMenuData.id http2)) /\
  (forall r, In r (getList RecycleCatalogType.Http emptyRecycle) ->
     ApiMenuData.id (RecycleDataItem.deletedItem r) <> ApiMenuData.id http2 /\
     RecycleDataItem.id r <> sampleNanoid 0) /\
  restoreMenuItem (sampleNanoid 0) RecycleCatalogType.Http
    (removeMenuItem sampleNanoid "me" (ApiMenuData.id http2)
       (mkWorld (Some [folder1; http2]) (Some emptyRecycle) 0)) =
  mkWorld
    (Some (List.filter (fun it => negb (String.eqb (ApiMenuData.id it) (ApiMenuData.id http2)))
             [folder1; http2] ++ [http2]))
    (Some emptyRecycle) 1.
Proof.
  assert (H1 : List.NoDup (List.map ApiMenuData.id [folder1; http2])) by solve_nodup.
  assert (H2 : In http2 [folder1; http2]) by (simpl; auto).
  assert (H3 : recycleCategory (ApiMenuData.type http2) = Some RecycleCatalogType.Http)
    by reflexivity.
  assert (H4 : forall item, In item [folder1; http2] ->
                 ApiMenuData.parentId item <> Some (ApiMenuData.id http2)).
  { intros item [<-|[<-|[]]]; discriminate. }
  assert (H5 : forall r, In r (getList RecycleCatalogType.Http emptyRecycle) ->
                 ApiMenuData.id (RecycleDataItem.deletedItem r) <> ApiMenuData.id http2 /\
                 RecycleDataItem.id r <> sampleNanoid 0).
  { intros r []. }
  repeat (split; [assumption|]).
  exact (remove_restore_exact sampleNanoid "me" [folder1; http2] http2
           RecycleCatalogType.Http emptyRecycle 0 H1 H2 H3 H4 H5).
Defined.

Lemma moveMenuItem_inside_folder_witness :
  List.NoDup (List.map ApiMenuData.id [itemB; itemC; folderF]) /\
  In itemB [itemB; itemC; folderF] /\
  In folderF [itemB; itemC; folderF] /\
  ApiMenuData.id itemB <> ApiMenuData.id folderF /\
  isMenuFolder (ApiMenuData.type folderF) = true /\
  exists pre moved post,
    moveMenuItem (ApiMenuData.id itemB) (ApiMenuData.id folderF) 0
      (mkWorld (Some [itemB; itemC; folderF]) None 0) =
      mkWorld (Some (pre ++ folderF :: moved :: post)) None 0 /\
    ApiMenuData.parentId moved = Some (ApiMenuData.id folderF) /\
    ApiMenuData.id moved = ApiMenuData.id itemB /\
    ApiMenuData.type moved = ApiMenuData.type itemB /\
    ApiMenuData.name moved = ApiMenuData.name itemB /\
    ApiMenuData.data moved = ApiMenuData.data itemB /\
    pre ++ folderF :: post =
      List.filter (fun it => negb (String.eqb (ApiMenuData.id it) (ApiMenuData.id itemB)))
        [itemB; itemC; folderF].
Proof.
  assert (H1 : List.NoDup (List.map ApiMenuData.id [itemB; itemC; folderF])) by solve_nodup.
  assert (H2 : In itemB [itemB; itemC; folderF]) by (simpl; auto).
  assert (H3 : In folderF [itemB; itemC; folderF]) by (simpl; auto).
  assert (H4 : ApiMenuData.id itemB <> ApiMenuData.id folderF) by discriminate.
  assert (H5 : isMenuFolder (ApiMenuData.type folderF) = true) by reflexivity.
  repeat (split; [assumption|]).
  exact (moveMenuItem_inside_folder [itemB; itemC; folderF] itemB folderF None 0
           H1 H2 H3 H4 H5).
Defined.

Lemma moveMenuItem_keeps_items_witness :
  List.NoDup (List.map ApiMenuData.id [itemA; itemB; itemC]) /\
  exists l',
    moveMenuItem "a" "b" 1 (mkWorld (Some [itemA; itemB; itemC]) None 0) =
      mkWorld (Some l') None 0 /\
    length l' = 3 /\
    List.NoDup (List.map ApiMenuData.id l').
Proof.
  assert (H : List.NoDup (List.map ApiMenuData.id [itemA; itemB; itemC])) by solve_nodup.
  split; [exact H|].
  destruct (moveMenuItem_keeps_items "a" "b" 1 [itemA; itemB; itemC] None 0)
    as (l' & H1 & _ & H3 & H4).
  exists l'. split; [exact H1|]. split; [exact H3|exact (H4 H)].
Defined.

Lemma updateMenuItem_twice_witness :
  MenuUpdate.name renameB <> Some ""%string /\
  updateMenuItem renameB
    (updateMenuItem renameB (mkWorld (Some [itemA; itemB; itemC]) None 0)) =
  updateMenuItem renameB (mkWorld (Some [itemA; itemB; itemC]) None 0).
Proof.
  assert (H : MenuUpdate.name renameB <> Some ""%string) by discriminate.
  split; [exact H|].
  exact (updateMenuItem_twice renameB (mkWorld (Some [itemA; itemB; itemC]) None 0) H).
Defined.

(** With the empty name the second application writes the empty name into
    the payload, where the first one kept the item's name. *)
Example updateMenuItem_empty_name_not_idempotent :
  let u := MenuUpdate.mk "a" None None (Some ""%string) None in
  let w := mkWorld (Some [itemA]) None 0 in
  updateMenuItem u (updateMenuItem u w) <> updateMenuItem u w.
Proof.
  intros u w H.
  assert (E : (fun w' => match menuRawList w' with
                         | Some [x] => ApiMenuData.data x !! "name"%string
                         | _ => None
                         end) (updateMenuItem u (updateMenuItem u w)) =
              (fun w' => match menuRawList w' with
                         | Some [x] => ApiMenuData.data x !! "name"%string
                         | _ => None
                         end) (updateMenuItem u w)) by now rewrite H.
  vm_compute in E. discriminate E.
Qed.
